(** * Classroom state and live-update scheduler of the lab bot

    A shallow embedding of [src/models/classroom.ts] (the [Classroom]
    aggregate) and of [src/utils/autoUpdateMessage.ts] (the auto-updating
    reply), with the properties the specification states about them,
    followed by the button handlers of [src/interactionHandlers.ts] and the
    event codes of [src/bevy/utils.ts].

    Conventions of the embedding.
    - In the classroom a JavaScript [number] is an integer [Z]: group
      numbers come from integer command options and from [parseInt] (whose
      [NaN] the command layer rejects), clock readings are [Date.now()]
      milliseconds.  [Collection<string, Student>] (a [Map]) is a
      [gmap string Student.t], [Set<string>] is a [gset string].  A student
      record lives in the mapping under one key and owns its
      [completedLabs] set; the in-place assignments [student.group = g] and
      [student.completedLabs.add(id)] on the object found under [studentId]
      are written as an update of the mapping at that key.
    - What callers of the class can do beyond that, numbers that are no
      integers ([NaN] among them) and records that share one [Set] object,
      is the subject of the second embedding of the class, [Objects];
      statements that depend on either are made there.
    - [EventEmitter.emit] is a writer effect: every operation returns the
      list of notifications it emitted, in order.
    - The auto-updating reply is embedded twice as well: [AutoUpdate] runs
      each refresh in one step, [Async] follows it from [await] to
      [await]; the first is the second with every refresh left alone
      until it has returned.
    - [logger.*] calls only write log lines and are left out. *)

From Stdlib Require Import Ascii.
From stdpp Require Import gmap strings list pretty.

Local Open Scope Z_scope.

(** ** Data model *)

Module Student.

Record t : Type := mk {
  id : string;
  name : string;
  group : option Z;
  completedLabs : gset string
}.

Definition set_group (g : Z) (s : t) : t :=
  mk (id s) (name s) (Some g) (completedLabs s).

Definition add_completed (lab : string) (s : t) : t :=
  mk (id s) (name s) (group s) ({[lab]} ∪ completedLabs s).

End Student.

Module LabSession.

Record t : Type := mk {
  id : string;
  name : string;
  startTime : Z;
  threadId : string
}.

End LabSession.

(** The four notification kinds of [ClassroomEventTypes], with the payload
    each [emit] call passes. *)
Inductive ClassroomEvent : Type :=
| student_added (s : Student.t)
| student_group_changed (s : Student.t) (g : Z)
| lab_started (l : LabSession.t)
| lab_completed (s : Student.t) (l : LabSession.t).

Module Classroom.

Record t : Type := mk {
  id : string;
  name : string;
  students : gmap string Student.t;
  groups : Z;
  activeLabSession : option LabSession.t
}.

Definition set_students (m : gmap string Student.t) (c : t) : t :=
  mk (id c) (name c) m (groups c) (activeLabSession c).

Definition set_activeLabSession (l : option LabSession.t) (c : t) : t :=
  mk (id c) (name c) (students c) (groups c) l.

(** What a call hands back: its return value, the classroom afterwards and
    the notifications emitted during the call. *)
Record Step (A : Type) : Type := mkStep {
  value : A;
  after : t;
  emitted : list ClassroomEvent
}.
Arguments mkStep {A} _ _ _.
Arguments value {A} _.
Arguments after {A} _.
Arguments emitted {A} _.

(** A call either returns or throws an [Error] with a message. *)
Inductive Outcome (A : Type) : Type :=
| Returned (a : A)
| Threw (message : string).
Arguments Returned {A} _.
Arguments Threw {A} _.

(** [constructor(id, name, groups = 1)] *)
Definition constructor (id name : string) (groups : Z) : t :=
  mk id name ∅ (Z.max 1 groups) None.

(** [addStudent(student)] *)
Definition addStudent (student : Student.t) (c : t) : Step unit :=
  mkStep tt
    (set_students (<[Student.id student := student]> (students c)) c)
    [student_added student].

(** [getStudent(id)] *)
Definition getStudent (id : string) (c : t) : option Student.t :=
  students c !! id.

(** [assignStudentToGroup(studentId, group)] *)
Definition assignStudentToGroup (studentId : string) (group : Z) (c : t)
  : Step bool :=
  match students c !! studentId with
  | None => mkStep false c []
  | Some student =>
      if (group <? 1) || (groups c <? group) then mkStep false c []
      else
        let student := Student.set_group group student in
        mkStep true
          (set_students (<[studentId := student]> (students c)) c)
          [student_group_changed student group]
  end.

(** [startLab(labName)]; [now] is the reading of [Date.now()] and [start]
    the one of [new Date()]. *)
Definition startLab (labName : string) (now start : Z) (c : t)
  : Step (Outcome LabSession.t) :=
  match activeLabSession c with
  | Some _ => mkStep (Threw "A lab session is already active") c []
  | None =>
      let session := LabSession.mk (pretty now) labName start (id c) in
      mkStep (Returned session)
        (set_activeLabSession (Some session) c)
        [lab_started session]
  end.

(** [completeLab(studentId)] *)
Definition completeLab (studentId : string) (c : t) : Step bool :=
  match activeLabSession c with
  | None => mkStep false c []
  | Some session =>
      match students c !! studentId with
      | None => mkStep false c []
      | Some student =>
          let isNewCompletion :=
            negb (bool_decide
                    (LabSession.id session ∈ Student.completedLabs student)) in
          let student :=
            Student.add_completed (LabSession.id session) student in
          mkStep true
            (set_students (<[studentId := student]> (students c)) c)
            (if isNewCompletion then [lab_completed student session] else [])
      end
  end.

(** [hasCompletedActiveLab(studentId)]: a query, it assigns nothing. *)
Definition hasCompletedActiveLab (studentId : string) (c : t) : bool :=
  match activeLabSession c with
  | None => false
  | Some session =>
      match students c !! studentId with
      | None => false
      | Some student =>
          bool_decide (LabSession.id session ∈ Student.completedLabs student)
      end
  end.

End Classroom.

(** ** Runs of the public operations

    A run is a list of calls made on one classroom after its construction;
    the clock readings a call takes are part of the call. *)

Module Run.

Import Classroom.

Inductive Call : Type :=
| callAddStudent (student : Student.t)
| callAssignStudentToGroup (studentId : string) (group : Z)
| callStartLab (labName : string) (now start : Z)
| callCompleteLab (studentId : string).

(** One call: the classroom afterwards and what was emitted. *)
Definition perform (o : Call) (c : Classroom.t)
  : Classroom.t * list ClassroomEvent :=
  match o with
  | callAddStudent student =>
      let r := addStudent student c in (after r, emitted r)
  | callAssignStudentToGroup studentId group =>
      let r := assignStudentToGroup studentId group c in (after r, emitted r)
  | callStartLab labName now start =>
      let r := startLab labName now start c in (after r, emitted r)
  | callCompleteLab studentId =>
      let r := completeLab studentId c in (after r, emitted r)
  end.

Fixpoint run (os : list Call) (c : Classroom.t)
  : Classroom.t * list ClassroomEvent :=
  match os with
  | [] => (c, [])
  | o :: os =>
      let '(c1, e1) := perform o c in
      let '(c2, e2) := run os c1 in
      (c2, e1 ++ e2)
  end.

(** The sessions announced by [lab-started] notifications of a log. *)
Definition started (log : list ClassroomEvent) : list LabSession.t :=
  omap (λ e, match e with lab_started l => Some l | _ => None end) log.

(** Conditions on the records handed to [addStudent]. *)
Definition group_in_range (n : Z) (o : Call) : bool :=
  match o with
  | callAddStudent student =>
      match Student.group student with
      | Some g => (1 <=? g) && (g <=? n)
      | None => true
      end
  | _ => true
  end.

Definition nothing_completed (o : Call) : bool :=
  match o with
  | callAddStudent student =>
      bool_decide (Student.completedLabs student = ∅)
  | _ => true
  end.

(** The three invariants of the data model, on a classroom and the log of
    the run that led to it. *)
Definition groups_ok (c : Classroom.t) : Prop := 1 ≤ groups c.

Definition student_groups_ok (c : Classroom.t) : Prop :=
  ∀ (sid : string) (s : Student.t) (g : Z),
    students c !! sid = Some s → Student.group s = Some g →
    1 ≤ g ≤ groups c.

Definition one_session (c : Classroom.t) (log : list ClassroomEvent) : Prop :=
  started log = option_list (activeLabSession c).

Definition invariant (c : Classroom.t) (log : list ClassroomEvent) : Prop :=
  groups_ok c ∧ one_session c log ∧ student_groups_ok c.

(** While no lab session is active no stored record has a completed lab. *)
Definition nothing_completed_yet (c : Classroom.t) : Prop :=
  activeLabSession c = None →
  ∀ (sid : string) (s : Student.t),
    students c !! sid = Some s → Student.completedLabs s = ∅.

(** A run used to exercise the statements below. *)
Definition sample_run : list Call :=
  [ callAddStudent (Student.mk "a" "A" None ∅);
    callAssignStudentToGroup "a" 1;
    callAddStudent (Student.mk "b" "B" None ∅);
    callAssignStudentToGroup "b" 2;
    callStartLab "L1" 1000 1001;
    callCompleteLab "a";
    callStartLab "L2" 2000 2001 ].

End Run.

(** ** The auto-updating reply

    [createAutoUpdateMessage] keeps its state in closure variables and
    registers timers and listeners; a session gathers them in one record.
    Each callback (a timer firing, a listener being invoked) is one step.
    [performUpdate] is an async function: here its awaited calls
    ([generateEmbed], [interaction.editReply]) are run to their end within
    the step, and whether they return or throw is given by an [Io]
    argument; this is the session in which no other callback runs while a
    refresh is waiting.  What the waiting lets through is the subject of
    [Async] below.  A timeout never runs before it is due; it may run
    later. *)

Module AutoUpdate.

Definition DEFAULT_UPDATE_INTERVAL : Z := 30 * 1000.
Definition DEFAULT_UPDATE_LIMIT : Z := 15 * 60 * 1000.
Definition MIN_UPDATE_INTERVAL : Z := 10 * 1000.

(** The three listener functions of a session; each is registered on one
    event only: [student-added], [student-group-changed], [lab-completed]. *)
Inductive Listener : Type :=
| onStudentAdded
| onStudentGroupChanged
| onLabCompleted.

#[global] Instance Listener_eq_dec : EqDecision Listener.
Proof. solve_decision. Defined.

(** The reason each listener passes to [queueUpdate]. *)
Definition reason_of (h : Listener) : string :=
  match h with
  | onStudentAdded => "student-joined"
  | onStudentGroupChanged => "group-changed"
  | onLabCompleted => "lab-completed"
  end.

(** What a [setTimeout] of the session runs when it fires. *)
Inductive Callback : Type :=
| deferredUpdate (reason : string)
| cleanupAtLimit.

Record Timeout : Type := mkTimeout {
  setAt : Z;
  delay : Z;
  callback : Callback
}.

Definition due (t : Timeout) : Z := setAt t + delay t.

(** What was sent to the reply: the first response, a refresh with its
    footer (minutes remaining, update number, reason), or the last one with
    the time-limit notice and the total. *)
Inductive Reply : Type :=
| initialReply
| updateReply (remainingTime number : Z) (reason : string)
| finalReply (total : Z).

(** Outcome of the awaited calls of one [performUpdate]. *)
Inductive Io : Type :=
| ioOk
| generateEmbedThrows
| editReplyThrows.

Record t : Type := mk {
  subject : option (list Listener);
  interval : Z;
  timeLimit : Z;
  startTime : Z;
  endTime : Z;
  updateCount : Z;
  lastUpdateTime : Z;
  pendingUpdate : bool;
  intervalId : bool;
  timeouts : list Timeout;
  replies : list Reply
}.

Definition set_subject (x : option (list Listener)) (s : t) : t :=
  mk x (interval s) (timeLimit s) (startTime s) (endTime s) (updateCount s)
    (lastUpdateTime s) (pendingUpdate s) (intervalId s) (timeouts s)
    (replies s).

Definition set_updateCount (x : Z) (s : t) : t :=
  mk (subject s) (interval s) (timeLimit s) (startTime s) (endTime s) x
    (lastUpdateTime s) (pendingUpdate s) (intervalId s) (timeouts s)
    (replies s).

Definition set_lastUpdateTime (x : Z) (s : t) : t :=
  mk (subject s) (interval s) (timeLimit s) (startTime s) (endTime s)
    (updateCount s) x (pendingUpdate s) (intervalId s) (timeouts s)
    (replies s).

Definition set_pendingUpdate (x : bool) (s : t) : t :=
  mk (subject s) (interval s) (timeLimit s) (startTime s) (endTime s)
    (updateCount s) (lastUpdateTime s) x (intervalId s) (timeouts s)
    (replies s).

Definition set_intervalId (x : bool) (s : t) : t :=
  mk (subject s) (interval s) (timeLimit s) (startTime s) (endTime s)
    (updateCount s) (lastUpdateTime s) (pendingUpdate s) x (timeouts s)
    (replies s).

Definition set_timeouts (x : list Timeout) (s : t) : t :=
  mk (subject s) (interval s) (timeLimit s) (startTime s) (endTime s)
    (updateCount s) (lastUpdateTime s) (pendingUpdate s) (intervalId s) x
    (replies s).

Definition set_replies (x : list Reply) (s : t) : t :=
  mk (subject s) (interval s) (timeLimit s) (startTime s) (endTime s)
    (updateCount s) (lastUpdateTime s) (pendingUpdate s) (intervalId s)
    (timeouts s) x.

(** The listeners of the session still registered on its classroom. *)
Definition subscriptions (s : t) : list Listener :=
  match subject s with
  | Some table => table
  | None => []
  end.

(** [classroom.removeListener(event, h)] *)
Definition removeListener (h : Listener) (s : t) : t :=
  set_subject (filter (λ h', h' ≠ h) <$> subject s) s.

(** [removeEventListeners()] *)
Definition removeEventListeners (s : t) : t :=
  match subject s with
  | Some _ =>
      removeListener onLabCompleted
        (removeListener onStudentGroupChanged
           (removeListener onStudentAdded s))
  | None => s
  end.

(** [clearInterval(intervalId)] *)
Definition clearInterval (s : t) : t := set_intervalId false s.

(** [setTimeout(callback, delay)], called at clock reading [now]. *)
Definition setTimeout (cb : Callback) (d now : Z) (s : t) : t :=
  set_timeouts (timeouts s ++ [mkTimeout now d cb]) s.

(** [interaction.editReply(...)] that went through. *)
Definition editReply (r : Reply) (s : t) : t :=
  set_replies (replies s ++ [r]) s.

(** The two statements every exit path runs:
    [clearInterval(intervalId); if (classroom) { removeEventListeners(); }] *)
Definition release (s : t) : t :=
  let s := clearInterval s in
  match subject s with
  | Some _ => removeEventListeners s
  | None => s
  end.

(** [Math.ceil(ms / 60000)] *)
Definition ceil_minutes (ms : Z) : Z := - ((- ms) / 60000).

(** [performUpdate(reason)]; [now] is its reading of [Date.now()]. *)
Definition performUpdate (reason : string) (now : Z) (io : Io) (s : t) : t :=
  let s := set_updateCount (updateCount s + 1) s in
  if endTime s <=? now then
    match io with
    | ioOk => release (editReply (finalReply (updateCount s + 1)) s)
    | _ => release s
    end
  else
    match io with
    | ioOk =>
        let s :=
          editReply
            (updateReply (ceil_minutes (endTime s - now))
               (updateCount s + 1) reason) s in
        set_pendingUpdate false (set_lastUpdateTime now s)
    | _ => release s
    end.

(** [queueUpdate(reason)]; [now] is its reading of [Date.now()], [now']
    the reading [performUpdate] takes when it is called at once. *)
Definition queueUpdate (reason : string) (now now' : Z) (io : Io) (s : t)
  : t :=
  let timeSinceLastUpdate := now - lastUpdateTime s in
  if timeSinceLastUpdate <? MIN_UPDATE_INTERVAL then
    if negb (pendingUpdate s) then
      let s := set_pendingUpdate true s in
      let delay := MIN_UPDATE_INTERVAL - timeSinceLastUpdate in
      setTimeout (deferredUpdate reason) delay now s
    else s
  else performUpdate reason now' io s.

(** [createAutoUpdateMessage], from the point where the first response has
    been sent: [start] and [now] are the two readings of [Date.now()],
    [classroom] tells whether the option was given. *)
Definition createAutoUpdateMessage
  (classroom : bool) (interval timeLimit start now : Z) : t :=
  mk (if classroom
      then Some [onStudentAdded; onStudentGroupChanged; onLabCompleted]
      else None)
    interval timeLimit start (start + timeLimit) 0 now false true
    [mkTimeout now timeLimit cleanupAtLimit] [initialReply].

(** What the event loop can run next for a session. *)
Inductive Occurrence : Type :=
| intervalFires (now : Z) (io : Io)
| timeoutFires (n : nat) (now : Z) (io : Io)
| notified (h : Listener) (now now' : Z) (io : Io).

Definition handle (e : Occurrence) (s : t) : t :=
  match e with
  | intervalFires now io =>
      if intervalId s then performUpdate "scheduled" now io s else s
  | timeoutFires n now io =>
      match timeouts s !! n with
      | Some timer =>
          if due timer <=? now then
            let s := set_timeouts (delete n (timeouts s)) s in
            match callback timer with
            | deferredUpdate reason => performUpdate reason now io s
            | cleanupAtLimit => release s
            end
          else s
      | None => s
      end
  | notified h now now' io =>
      if bool_decide (h ∈ subscriptions s)
      then queueUpdate (reason_of h) now now' io s
      else s
  end.

Definition run (es : list Occurrence) (s : t) : t :=
  foldl (λ s e, handle e s) s es.

(** A session is torn down when its interval timer is cancelled and none of
    its listeners is registered any more; everything is released when, on
    top of that, no timeout of the session is left. *)
Definition torn_down (s : t) : Prop :=
  intervalId s = false ∧ subscriptions s = [].

Definition all_released (s : t) : Prop :=
  torn_down s ∧ timeouts s = [].

(** The timer [queueUpdate] sets at [now] when the last refresh was at
    [last]. *)
Definition deferred (reason : string) (now last : Z) : Timeout :=
  mkTimeout now (MIN_UPDATE_INTERVAL - (now - last)) (deferredUpdate reason).

(** A session started at time 0 with the default interval and limit. *)
Definition fresh_session : t :=
  createAutoUpdateMessage true DEFAULT_UPDATE_INTERVAL DEFAULT_UPDATE_LIMIT
    0 0.

(** The interval timer fires every 30 s up to 870 s and each refresh goes
    through; two students complete the lab at 895 s and 896 s; the timer of
    the time limit fires at 900 s. *)
Definition last_minute_run : list Occurrence :=
  ((λ k : nat, intervalFires (DEFAULT_UPDATE_INTERVAL * Z.of_nat k) ioOk)
     <$> seq 1 29)
  ++ [ notified onLabCompleted 895000 895000 ioOk;
       notified onLabCompleted 896000 896000 ioOk;
       timeoutFires 0 900000 ioOk ].

(** A session started at time 0 with an interval of 3 s; a student joins
    at 1 s, the post of the refresh at 3 s throws, and the timeout of the
    notification fires at 10 s. *)
Definition short_interval_session : t :=
  createAutoUpdateMessage true 3000 DEFAULT_UPDATE_LIMIT 0 0.

Definition failed_post_run : list Occurrence :=
  [ notified onStudentAdded 1000 1000 ioOk;
    intervalFires 3000 editReplyThrows;
    timeoutFires 1 10000 ioOk ].

(** What holds of a session throughout its life: the deadline is where it
    was put, the first reply is the initial response, every further reply
    belongs to one [performUpdate], and the interval timer and the
    listeners [subs] registered at the start are either all still there or
    all gone. *)
Definition session_ok (deadline : Z) (subs : list Listener) (s : t) : Prop :=
  endTime s = deadline
  ∧ head (replies s) = Some initialReply
  ∧ Z.of_nat (length (replies s)) ≤ updateCount s + 1
  ∧ ((intervalId s = true ∧ subscriptions s = subs) ∨ torn_down s).

Definition is_timeoutFires (e : Occurrence) : bool :=
  match e with
  | timeoutFires _ _ _ => true
  | _ => false
  end.

End AutoUpdate.

(** ** The auto-updating reply, await by await

    [performUpdate] gives up control at [await generateEmbed()] and at
    [await interaction.editReply(...)], and whatever callback is due runs
    in between: a second listener of the same tick, a timer.  Here each
    call of [performUpdate] is followed through its three stretches: up to
    the first [await], from the first to the second, and after the second.
    The footer is built in the second stretch from the [updateCount] of
    that moment; [lastUpdateTime] and [pendingUpdate] are written in the
    third.  The calls in progress are kept in the order they were made.
    [AutoUpdate.performUpdate] above is the case where the three stretches
    follow each other with nothing in between. *)

Module Async.

Import AutoUpdate.

(** Where a call of [performUpdate] stands. *)
Inductive Stage : Type :=
| rendering
| posting (r : Reply)
| settled.

Module Flight.

(** One call of [performUpdate]: its argument, its reading of
    [Date.now()], the branch [now >= endTime] it took, and its stage. *)
Record t : Type := mk {
  reason : string;
  now : Z;
  final : bool;
  stage : Stage
}.

Definition set_stage (x : Stage) (f : t) : t :=
  mk (reason f) (now f) (final f) x.

End Flight.

Record t : Type := mk {
  session : AutoUpdate.t;
  flights : list Flight.t
}.

Definition set_session (s : AutoUpdate.t) (a : t) : t := mk s (flights a).

Definition set_stage (i : nat) (x : Stage) (a : t) : t :=
  mk (session a) (alter (Flight.set_stage x) i (flights a)).

(** [performUpdate(reason)] up to [await generateEmbed()]. *)
Definition performUpdate (reason : string) (now : Z) (a : t) : t :=
  let s := set_updateCount (updateCount (session a) + 1) (session a) in
  mk s (flights a ++ [Flight.mk reason now (endTime s <=? now) rendering]).

(** From [await generateEmbed()] to [await interaction.editReply(...)]:
    the footer is set and [editReply] called; [ok] tells whether
    [generateEmbed] returned or threw. *)
Definition afterGenerateEmbed (i : nat) (ok : bool) (a : t) : t :=
  match flights a !! i with
  | Some f =>
      match Flight.stage f with
      | rendering =>
          if ok then
            let s := session a in
            let r :=
              if Flight.final f then finalReply (updateCount s + 1)
              else
                updateReply (ceil_minutes (endTime s - Flight.now f))
                  (updateCount s + 1) (Flight.reason f) in
            set_stage i (posting r) a
          else set_stage i settled (set_session (release (session a)) a)
      | _ => a
      end
  | None => a
  end.

(** After [await interaction.editReply(...)]; [ok] tells whether it went
    through or threw. *)
Definition afterEditReply (i : nat) (ok : bool) (a : t) : t :=
  match flights a !! i with
  | Some f =>
      match Flight.stage f with
      | posting r =>
          let s :=
            if ok then
              let s := editReply r (session a) in
              if Flight.final f then release s
              else set_pendingUpdate false
                     (set_lastUpdateTime (Flight.now f) s)
            else release (session a) in
          set_stage i settled (set_session s a)
      | _ => a
      end
  | None => a
  end.

(** [queueUpdate(reason)]; [now] is its reading of [Date.now()], [now']
    the reading [performUpdate] takes when it is called at once. *)
Definition queueUpdate (reason : string) (now now' : Z) (a : t) : t :=
  let s := session a in
  let timeSinceLastUpdate := now - lastUpdateTime s in
  if timeSinceLastUpdate <? MIN_UPDATE_INTERVAL then
    if negb (pendingUpdate s) then
      let s := set_pendingUpdate true s in
      let delay := MIN_UPDATE_INTERVAL - timeSinceLastUpdate in
      set_session (setTimeout (deferredUpdate reason) delay now s) a
    else a
  else performUpdate reason now' a.

(** What the event loop can run next for a session. *)
Inductive Occurrence : Type :=
| intervalFires (now : Z)
| timeoutFires (n : nat) (now : Z)
| notified (h : Listener) (now now' : Z)
| generateEmbedSettles (i : nat) (ok : bool)
| editReplySettles (i : nat) (ok : bool).

Definition handle (e : Occurrence) (a : t) : t :=
  let s := session a in
  match e with
  | intervalFires now =>
      if intervalId s then performUpdate "scheduled" now a else a
  | timeoutFires n now =>
      match timeouts s !! n with
      | Some timer =>
          if due timer <=? now then
            let a := set_session (set_timeouts (delete n (timeouts s)) s) a in
            match callback timer with
            | deferredUpdate reason => performUpdate reason now a
            | cleanupAtLimit => set_session (release (session a)) a
            end
          else a
      | None => a
      end
  | notified h now now' =>
      if bool_decide (h ∈ subscriptions s)
      then queueUpdate (reason_of h) now now' a
      else a
  | generateEmbedSettles i ok => afterGenerateEmbed i ok a
  | editReplySettles i ok => afterEditReply i ok a
  end.

Definition run (es : list Occurrence) (a : t) : t :=
  foldl (λ a e, handle e a) a es.

(** The awaited calls of the [i]-th [performUpdate] settle one after the
    other with nothing in between, with the outcome [io]. *)
Definition uninterrupted (io : Io) (i : nat) : list Occurrence :=
  match io with
  | ioOk => [generateEmbedSettles i true; editReplySettles i true]
  | generateEmbedThrows => [generateEmbedSettles i false]
  | editReplyThrows => [generateEmbedSettles i true; editReplySettles i false]
  end.

(** An occurrence of the session above, await by await. *)
Definition stretched (e : AutoUpdate.Occurrence) (i : nat)
  : list Occurrence :=
  match e with
  | AutoUpdate.intervalFires now io =>
      intervalFires now :: uninterrupted io i
  | AutoUpdate.timeoutFires n now io =>
      timeoutFires n now :: uninterrupted io i
  | AutoUpdate.notified h now now' io =>
      notified h now now' :: uninterrupted io i
  end.

(** A run of the session above, each of its refreshes left alone until
    it has returned. *)
Definition run_uninterrupted (es : list AutoUpdate.Occurrence) (a : t) : t :=
  foldl (λ a e, run (stretched e (length (flights a))) a) a es.

(** A session started at time 0 with the default interval and limit, no
    refresh in progress. *)
Definition fresh : t := mk fresh_session [].

(** The two notifications of a button press that registers a student and
    puts the student into a group, 20 s after the start, both handled
    before the first refresh gets its embed; then the awaited calls of
    both refreshes go through. *)
Definition one_tick_run : list Occurrence :=
  [ notified onStudentAdded 20000 20000;
    notified onStudentGroupChanged 20000 20000;
    generateEmbedSettles 0 true;
    generateEmbedSettles 1 true;
    editReplySettles 0 true;
    editReplySettles 1 true ].


End Async.

(** ** Interaction handlers

    The button handlers of [src/interactionHandlers.ts] call the classroom
    operations on the classroom found in the global [classrooms] collection
    under the thread id of the button.  A classroom object is entered into
    the collection once, under one key, so the in-place changes a handler
    makes are written as an update of the collection at that key.  The
    handler's last statement, [await interaction.reply(...)], is recorded
    as the answer it sends; [parseInt] is the JavaScript builtin and is a
    parameter ([None] stands for [NaN]). *)

Module Handlers.

Import Classroom.

(** The contents a handler replies with. *)
Inductive Answer : Type :=
| invalidGroupNumber          (* "Invalid group number." *)
| classroomGone               (* "This classroom no longer exists." *)
| joined (groupNum : Z)       (* "You have joined Group N in this classroom!" *)
| labInactive                 (* "This lab session is no longer active." *)
| notRegistered               (* "You are not registered in this classroom. ..." *)
| alreadyCompleted (labName : string)
| completed (labName : string)
| unknownAction (action : string).

Record Handled : Type := mkHandled {
  classrooms : gmap string Classroom.t;
  answer : Answer;
  notifications : list ClassroomEvent
}.

(** [customId.split(":")] *)
Fixpoint split_colon (s : string) : list string :=
  match s with
  | EmptyString => [EmptyString]
  | String a s' =>
      if Ascii.eqb a ":"%char then EmptyString :: split_colon s'
      else
        match split_colon s' with
        | part :: parts => String a part :: parts
        | [] => [String a EmptyString]
        end
  end.

Fixpoint no_colon (s : string) : bool :=
  match s with
  | EmptyString => true
  | String a s' => negb (Ascii.eqb a ":"%char) && no_colon s'
  end.

(** The custom ids the commands give their buttons:
    [`join_group:${groupNum}:${thread.id}`] in [create-classroom] and
    [`complete_lab:${labSession.id}:${threadId}`] in [start-lab]. *)
Definition joinGroupCustomId (groupNum : Z) (threadId : string) : string :=
  "join_group:" +:+ pretty groupNum +:+ ":" +:+ threadId.

Definition completeLabCustomId (labId threadId : string) : string :=
  "complete_lab:" +:+ labId +:+ ":" +:+ threadId.

Section WithParseInt.

Variable parseInt : string → option Z.

(** [handleJoinGroup(interaction, params)]; [userId] and [username] are
    [interaction.user.id] and [interaction.user.username]. *)
Definition handleJoinGroup
  (params : list string) (userId username : string)
  (store : gmap string Classroom.t) : Handled :=
  let groupStr := params !! 0%nat in
  let threadId := params !! 1%nat in
  match groupStr ≫= parseInt with
  | None => mkHandled store invalidGroupNumber []
  | Some groupNum =>
      match threadId with
      | None => mkHandled store classroomGone []
      | Some threadId =>
          match store !! threadId with
          | None => mkHandled store classroomGone []
          | Some classroom =>
              let created :=
                match getStudent userId classroom with
                | Some _ => mkStep tt classroom []
                | None =>
                    addStudent (Student.mk userId username None ∅) classroom
                end in
              let assigned :=
                assignStudentToGroup userId groupNum (after created) in
              mkHandled (<[threadId := after assigned]> store)
                (joined groupNum)
                (emitted created ++ emitted assigned)
          end
      end
  end.

(** [handleCompleteLab(interaction, params)] *)
Definition handleCompleteLab
  (params : list string) (userId : string)
  (store : gmap string Classroom.t) : Handled :=
  let labId := params !! 0%nat in
  let threadId := params !! 1%nat in
  match threadId with
  | None => mkHandled store classroomGone []
  | Some threadId =>
      match store !! threadId with
      | None => mkHandled store classroomGone []
      | Some classroom =>
          match activeLabSession classroom with
          | None => mkHandled store labInactive []
          | Some session =>
              if negb (bool_decide (Some (LabSession.id session) = labId))
              then mkHandled store labInactive []
              else
                match getStudent userId classroom with
                | None => mkHandled store notRegistered []
                | Some _ =>
                    let wasAlreadyCompleted :=
                      hasCompletedActiveLab userId classroom in
                    let done := completeLab userId classroom in
                    mkHandled (<[threadId := after done]> store)
                      (if wasAlreadyCompleted
                       then alreadyCompleted (LabSession.name session)
                       else completed (LabSession.name session))
                      (emitted done)
                end
          end
      end
  end.

(** [handleButtonInteraction(interaction)] *)
Definition handleButtonInteraction
  (customId userId username : string) (store : gmap string Classroom.t)
  : Handled :=
  match split_colon customId with
  | [] => mkHandled store (unknownAction EmptyString) []
  | action :: params =>
      if String.eqb action "join_group"
      then handleJoinGroup params userId username store
      else if String.eqb action "complete_lab"
      then handleCompleteLab params userId store
      else mkHandled store (unknownAction action) []
  end.

End WithParseInt.

(** The calls the two button handlers make on a classroom: [addStudent]
    only with a record without group and without completed labs, and never
    [startLab]. *)
Definition is_button_call (o : Run.Call) : bool :=
  match o with
  | Run.callAddStudent student =>
      bool_decide (Student.group student = None)
      && bool_decide (Student.completedLabs student = ∅)
  | Run.callStartLab _ _ _ => false
  | _ => true
  end.

(** A stand-in for [parseInt(s, 10)] in examples: the value of a non-empty
    string of decimal digits, [NaN] for any other string. *)
Fixpoint digits_value (acc : Z) (s : string) : option Z :=
  match s with
  | EmptyString => Some acc
  | String a s' =>
      let n := Z.of_nat (nat_of_ascii a) in
      if (48 <=? n) && (n <=? 57)
      then digits_value (10 * acc + (n - 48)) s'
      else None
  end.

Definition parse_digits (s : string) : option Z :=
  match s with
  | EmptyString => None
  | _ => digits_value 0 s
  end.

(** A collection with one classroom: two students in groups 1 and 2 and
    the lab started at clock reading 1000. *)
Definition sample_store : gmap string Classroom.t :=
  {[ "thread-1" :=
       (Run.run (take 5 Run.sample_run)
          (Classroom.constructor "thread-1" "Classroom" 2)).1 ]}.

End Handlers.

(** ** Counting notifications *)

Module Notify.

(** Is [e] the [lab-completed] notification of the student with id [sid]? *)
Definition is_completion (sid : string) (e : ClassroomEvent) : bool :=
  match e with
  | lab_completed s _ => bool_decide (Student.id s = sid)
  | _ => false
  end.

Definition completions (sid : string) (log : list ClassroomEvent) : nat :=
  length (List.filter (is_completion sid) log).

(** Does the call hand a record with id [sid] to [addStudent]? *)
Definition adds (sid : string) (o : Run.Call) : bool :=
  match o with
  | Run.callAddStudent student => bool_decide (Student.id student = sid)
  | _ => false
  end.

(** How many [lab-completed] notifications a student can still cause. *)
Definition completion_bound (sid : string) (c : Classroom.t) : nat :=
  if Classroom.hasCompletedActiveLab sid c then 0%nat else 1%nat.

(** Every record is stored under its own id. *)
Definition keys_ok (c : Classroom.t) : Prop :=
  ∀ (k : string) (s : Student.t),
    Classroom.students c !! k = Some s → Student.id s = k.

End Notify.

(** ** Alphabetical event codes

    [src/bevy/utils.ts] converts between numbers and codes of lower-case
    letters ([0] is "a", [25] is "z", [26] is "aa").  A string is read
    character by character with [charCodeAt]; for the ASCII strings the
    functions produce, the characters of a Rocq string are the same code
    units.  The code computes in doubles, which hold every integer up to
    [2^53] and on which [+], [-], [*], [%] and [Math.floor(n / 26)] are
    exact as long as arguments and result are such integers; beyond that
    they round.  The definitions below compute with exact integers: they
    are what the code computes as long as every value it meets stays
    within [MAX_SAFE_INTEGER + 1], and the statements about them are made
    under that condition.  The [while] loop of [number2alphabet] is run
    with as many rounds as its argument allows for;
    [number2alphabet_enough] below shows that it has ended by then. *)

Module Bevy.

(** [Number.MAX_SAFE_INTEGER] *)
Definition MAX_SAFE_INTEGER : Z := 2 ^ 53 - 1.

(** The body of the [for] loop of [alphabet2number], [result] being the
    value so far. *)
Fixpoint alphabet2number_loop (a : string) (result : Z) : Z :=
  match a with
  | EmptyString => result
  | String c a' =>
      let charCode := Z.of_nat (nat_of_ascii c) - 97 in
      alphabet2number_loop a' (result * 26 + (charCode + 1))
  end.

(** [alphabet2number(a)] *)
Definition alphabet2number (a : string) : Z :=
  alphabet2number_loop a 0 - 1.

(** The [while (n > 0)] loop of [number2alphabet]. *)
Fixpoint number2alphabet_loop (rounds : nat) (n : Z) (result : string)
  : string :=
  match rounds with
  | O => result
  | S rounds =>
      if 0 <? n then
        let n := n - 1 in
        let remainder := n mod 26 in
        let result :=
          String (ascii_of_nat (Z.to_nat (97 + remainder))) result in
        number2alphabet_loop rounds (n / 26) result
      else result
  end.

(** [number2alphabet(n)] *)
Definition number2alphabet (n : Z) : string :=
  number2alphabet_loop (Z.to_nat (n + 1)) (n + 1) EmptyString.

(** Is every character of the string one of "a" .. "z"? *)
Fixpoint lower_case (a : string) : bool :=
  match a with
  | EmptyString => true
  | String c a' =>
      let code := Z.of_nat (nat_of_ascii c) in
      (97 <=? code) && (code <=? 122) && lower_case a'
  end.

End Bevy.

(** ** The classroom with JavaScript numbers and shared Set objects

    Two things the embedding above leaves out can be seen through the
    public operations.  A [number] need not be an integer: it may be a
    fraction, an infinity or [NaN], and for [NaN] both [group < 1] and
    [group > this.groups] are false and [Math.max(1, NaN)] is [NaN].  And
    [addStudent] stores the object it is given, whose [completedLabs] is a
    reference to a [Set] object that [completeLab] changes in place, so
    two records may refer to one [Set].

    Here a number is a rational (every finite double is one), an infinity
    or [NaN], with the comparisons of JavaScript; a record holds the
    reference of its [Set]; and the [Set] objects that have reached the
    classroom are kept with their contents.  A call of [addStudent] comes
    with the contents the record's [Set] has in case the classroom has not
    seen that object before. *)

Module Objects.

Inductive number : Type :=
| finite (q : Qcanon.Qc)
| infinity
| neg_infinity
| NaN.

#[global] Instance number_eq_dec : EqDecision number.
Proof. solve_decision. Defined.

(** The number of an integer literal. *)
Definition num (z : Z) : number := finite (Qc_of_Z z).

(** [a < b]; [a > b] is [lt b a].  A comparison with [NaN] is false. *)
Definition lt (a b : number) : bool :=
  match a, b with
  | NaN, _ | _, NaN => false
  | neg_infinity, neg_infinity => false
  | neg_infinity, _ => true
  | infinity, _ => false
  | finite _, infinity => true
  | finite _, neg_infinity => false
  | finite x, finite y => bool_decide (Qcanon.Qclt x y)
  end.

(** [a <= b], used to state ranges; false with [NaN] as well. *)
Definition le (a b : number) : bool :=
  match a, b with
  | NaN, _ | _, NaN => false
  | neg_infinity, _ => true
  | _, infinity => true
  | finite x, finite y => bool_decide (Qcanon.Qcle x y)
  | _, _ => false
  end.

(** [Math.max(a, b)] *)
Definition max (a b : number) : number :=
  match a, b with
  | NaN, _ | _, NaN => NaN
  | _, _ => if lt a b then b else a
  end.


Module Student.

Record t : Type := mk {
  id : string;
  name : string;
  group : option number;
  completedLabs : positive
}.

Definition set_group (g : number) (s : t) : t :=
  mk (id s) (name s) (Some g) (completedLabs s).

End Student.

Inductive Event : Type :=
| student_added (s : Student.t)
| student_group_changed (s : Student.t) (g : number)
| lab_started (l : LabSession.t)
| lab_completed (s : Student.t) (l : LabSession.t).

Record t : Type := mk {
  id : string;
  name : string;
  students : gmap string Student.t;
  groups : number;
  activeLabSession : option LabSession.t;
  sets : gmap positive (gset string)
}.

Definition set_students (m : gmap string Student.t) (c : t) : t :=
  mk (id c) (name c) m (groups c) (activeLabSession c) (sets c).

Definition set_activeLabSession (l : option LabSession.t) (c : t) : t :=
  mk (id c) (name c) (students c) (groups c) l (sets c).

Definition set_sets (h : gmap positive (gset string)) (c : t) : t :=
  mk (id c) (name c) (students c) (groups c) (activeLabSession c) h.

(** The contents of the [Set] object behind a reference. *)
Definition contents (c : t) (ref : positive) : gset string :=
  default ∅ (sets c !! ref).

Record Step (A : Type) : Type := mkStep {
  value : A;
  after : t;
  emitted : list Event
}.
Arguments mkStep {A} _ _ _.
Arguments value {A} _.
Arguments after {A} _.
Arguments emitted {A} _.

(** [constructor(id, name, groups = 1)] *)
Definition constructor (id name : string) (groups : number) : t :=
  mk id name ∅ (max (num 1) groups) None ∅.

(** [addStudent(student)]; [fresh] is what the record's [Set] holds in
    case that object is new to the classroom. *)
Definition addStudent (student : Student.t) (fresh : gset string) (c : t)
  : Step unit :=
  let known :=
    match sets c !! Student.completedLabs student with
    | Some _ => sets c
    | None => <[Student.completedLabs student := fresh]> (sets c)
    end in
  mkStep tt
    (set_sets known
       (set_students (<[Student.id student := student]> (students c)) c))
    [student_added student].

(** [getStudent(id)] *)
Definition getStudent (id : string) (c : t) : option Student.t :=
  students c !! id.

(** [assignStudentToGroup(studentId, group)] *)
Definition assignStudentToGroup (studentId : string) (group : number) (c : t)
  : Step bool :=
  match students c !! studentId with
  | None => mkStep false c []
  | Some student =>
      if lt group (num 1) || lt (groups c) group then mkStep false c []
      else
        let student := Student.set_group group student in
        mkStep true
          (set_students (<[studentId := student]> (students c)) c)
          [student_group_changed student group]
  end.

(** [startLab(labName)] *)
Definition startLab (labName : string) (now start : Z) (c : t)
  : Step (Classroom.Outcome LabSession.t) :=
  match activeLabSession c with
  | Some _ =>
      mkStep (Classroom.Threw "A lab session is already active") c []
  | None =>
      let session := LabSession.mk (pretty now) labName start (id c) in
      mkStep (Classroom.Returned session)
        (set_activeLabSession (Some session) c)
        [lab_started session]
  end.

(** [completeLab(studentId)]: the record stays as it is, its [Set] gets
    the id of the session. *)
Definition completeLab (studentId : string) (c : t) : Step bool :=
  match activeLabSession c with
  | None => mkStep false c []
  | Some session =>
      match students c !! studentId with
      | None => mkStep false c []
      | Some student =>
          let ref := Student.completedLabs student in
          let isNewCompletion :=
            negb (bool_decide (LabSession.id session ∈ contents c ref)) in
          mkStep true
            (set_sets
               (<[ref := {[LabSession.id session]} ∪ contents c ref]>
                  (sets c)) c)
            (if isNewCompletion then [lab_completed student session] else [])
      end
  end.

(** [hasCompletedActiveLab(studentId)] *)
Definition hasCompletedActiveLab (studentId : string) (c : t) : bool :=
  match activeLabSession c with
  | None => false
  | Some session =>
      match students c !! studentId with
      | None => false
      | Some student =>
          bool_decide
            (LabSession.id session
             ∈ contents c (Student.completedLabs student))
      end
  end.

(** Calls and runs, as for the classroom above. *)
Inductive Call : Type :=
| callAddStudent (student : Student.t) (fresh : gset string)
| callAssignStudentToGroup (studentId : string) (group : number)
| callStartLab (labName : string) (now start : Z)
| callCompleteLab (studentId : string).

Definition perform (o : Call) (c : t) : t * list Event :=
  match o with
  | callAddStudent student fresh =>
      let r := addStudent student fresh c in (after r, emitted r)
  | callAssignStudentToGroup studentId group =>
      let r := assignStudentToGroup studentId group c in (after r, emitted r)
  | callStartLab labName now start =>
      let r := startLab labName now start c in (after r, emitted r)
  | callCompleteLab studentId =>
      let r := completeLab studentId c in (after r, emitted r)
  end.

Fixpoint run (os : list Call) (c : t) : t * list Event :=
  match os with
  | [] => (c, [])
  | o :: os =>
      let '(c1, e1) := perform o c in
      let '(c2, e2) := run os c1 in
      (c2, e1 ++ e2)
  end.

Definition started (log : list Event) : list LabSession.t :=
  omap (λ e, match e with lab_started l => Some l | _ => None end) log.

(** [1 <= g <= n] *)
Definition in_range (n g : number) : bool := le (num 1) g && le g n.


(** The invariants of the data model: the group count is at least 1, the
    sessions started so far are the active one, if any, and every group
    that is set lies within [1..groups]. *)
Definition groups_in_range (c : t) : Prop :=
  ∀ (sid : string) (s : Student.t) (g : number),
    students c !! sid = Some s → Student.group s = Some g →
    in_range (groups c) g = true.

Definition invariant (c : t) (log : list Event) : Prop :=
  le (num 1) (groups c) = true
  ∧ started log = option_list (activeLabSession c)
  ∧ groups_in_range c.

(** Every record handed to [addStudent] brings an empty [Set] that is new
    to the classroom. *)
Fixpoint new_empty_sets (os : list Call) (c : t) : bool :=
  match os with
  | [] => true
  | o :: os =>
      match o with
      | callAddStudent student fresh =>
          bool_decide (sets c !! Student.completedLabs student = None)
          && bool_decide (fresh = ∅)
      | _ => true
      end
      && new_empty_sets os (perform o c).1
  end.

(** What runs with new, empty sets keep: the [Set] of every record is
    known, no two records share one, and while no lab is active every
    [Set] is empty. *)
Definition unshared (c : t) : Prop :=
  (∀ k s, students c !! k = Some s →
          is_Some (sets c !! Student.completedLabs s))
  ∧ (∀ k1 k2 s1 s2,
       students c !! k1 = Some s1 → students c !! k2 = Some s2 →
       Student.completedLabs s1 = Student.completedLabs s2 → k1 = k2)
  ∧ (activeLabSession c = None →
     ∀ ref done, sets c !! ref = Some done → done = ∅).

(** A run used to exercise the statements below: students "a" and "b"
    with the sets 1 and 2 of their own, a lab, and "a" completing it. *)
Definition sample_run : list Call :=
  [ callAddStudent (Student.mk "a" "A" None 1) ∅;
    callAssignStudentToGroup "a" (num 1);
    callAddStudent (Student.mk "b" "B" None 2) ∅;
    callAssignStudentToGroup "b" (num 2);
    callStartLab "L1" 1000 1001;
    callCompleteLab "a" ].

(** The same with one [Set] for both records. *)
Definition shared_run : list Call :=
  [ callAddStudent (Student.mk "a" "A" None 1) ∅;
    callAddStudent (Student.mk "b" "B" None 1) ∅;
    callStartLab "L1" 1000 1001;
    callCompleteLab "a" ].

End Objects.

(** * Properties *)

Import Classroom.

Example constructor_two :
  groups (constructor "t1" "Classroom" 2) = 2.
Proof. reflexivity. Qed.

Example startLab_id :
  LabSession.id <$>
    activeLabSession
      (after (startLab "L1" 1000 1001 (constructor "t1" "Classroom" 2)))
  = Some "1000".
Proof. vm_compute. reflexivity. Qed.

(** ** Construction and the student mapping *)

(** C7: for every integer [input], the constructed classroom has
    [groups = max(1, input)], an empty student mapping and no active lab
    session; for every [input ≤ 0] its [groups] is 1. *)
Theorem constructor_floor (id name : string) (input : Z) :
  let c := constructor id name input in
  groups c = Z.max 1 input
  ∧ students c = ∅
  ∧ activeLabSession c = None
  ∧ (input ≤ 0 → groups c = 1).
Proof.
  cbn. repeat split. intros Hle. apply Z.max_l. lia.
Qed.

Lemma constructor_floor_witness :
  -3 ≤ 0 ∧ groups (constructor "thread-1" "Classroom" (-3)) = 1.
Proof.
  split; [lia |].
  apply (constructor_floor "thread-1" "Classroom" (-3)). lia.
Defined.

(** C9: after [addStudent(s)], [getStudent(s.id)] returns a record with the
    id and the name of [s] (it is [s] itself), whatever was stored under
    that id before: the mapping is the old one with the entry at [s.id]
    set to [s]. *)
Theorem addStudent_getStudent (s : Student.t) (c : Classroom.t) :
  let c' := after (addStudent s c) in
  students c' = <[Student.id s := s]> (students c)
  ∧ ∃ r, getStudent (Student.id s) c' = Some r
         ∧ r = s
         ∧ Student.id r = Student.id s
         ∧ Student.name r = Student.name s.
Proof.
  cbn. split; [reflexivity |].
  exists s. unfold getStudent; cbn.
  rewrite lookup_insert_eq. auto.
Qed.

(** ** Group assignment *)

(** C6: [assignStudentToGroup(studentId, group)] returns false exactly when
    the student id is not registered or [group < 1] or [group > groups],
    and then changes nothing and emits nothing; otherwise it sets the
    student's group, emits [student-group-changed] with the student and the
    group, and returns true, and a second call with the same group emits
    the same notification again. *)
Theorem assignStudentToGroup_spec (c : Classroom.t) (sid : string) (g : Z) :
  let r := assignStudentToGroup sid g c in
  (value r = false ↔ (students c !! sid = None ∨ g < 1 ∨ groups c < g))
  ∧ (value r = false → r = mkStep false c [])
  ∧ (∀ st, students c !! sid = Some st → 1 ≤ g ≤ groups c →
       let st' :=
         Student.mk (Student.id st) (Student.name st) (Some g)
           (Student.completedLabs st) in
       r = mkStep true
             (set_students (<[sid := st']> (students c)) c)
             [student_group_changed st' g]
       ∧ getStudent sid (after r) = Some st'
       ∧ (getStudent sid (after r) ≫= Student.group) = Some g
       ∧ (∀ k, k ≠ sid → getStudent k (after r) = getStudent k c)
       ∧ assignStudentToGroup sid g (after r)
         = mkStep true (after r) [student_group_changed st' g]).
Proof.
  cbn. unfold assignStudentToGroup, getStudent.
  destruct (students c !! sid) as [st|] eqn:Hst.
  - destruct (Z.ltb_spec g 1) as [Hlo|Hlo];
      destruct (Z.ltb_spec (groups c) g) as [Hhi|Hhi]; cbn.
    + split; [intuition | split; [reflexivity | intros ? ? ?; lia]].
    + split; [intuition | split; [reflexivity | intros ? ? ?; lia]].
    + split; [intuition | split; [reflexivity | intros ? ? ?; lia]].
    + split.
      { split; [discriminate | intros [?|[?|?]]; [discriminate | lia | lia]]. }
      split; [discriminate |].
      intros st0 [= <-] _. split; [reflexivity |].
      rewrite lookup_insert_eq. split; [reflexivity |].
      split; [reflexivity |]. split.
      { intros k Hk. apply lookup_insert_ne. congruence. }
      destruct (Z.ltb_spec g 1); [lia |].
      destruct (Z.ltb_spec (groups c) g); [lia |]. cbn.
      rewrite insert_insert_eq. reflexivity.
  - split; [intuition |]. split; [reflexivity |]. intros ? [=].
Qed.

Lemma assignStudentToGroup_spec_witness :
  let c := after (addStudent (Student.mk "a" "A" None ∅)
                    (constructor "thread-1" "Classroom" 2)) in
  value (assignStudentToGroup "a" 3 c) = false
  ∧ assignStudentToGroup "a" 3 c = mkStep false c []
  ∧ (getStudent "a" (after (assignStudentToGroup "a" 1 c)) ≫= Student.group)
    = Some 1
  ∧ (getStudent "a" (after (assignStudentToGroup "a" 2 c)) ≫= Student.group)
    = Some 2
  ∧ emitted (assignStudentToGroup "a" 2 (after (assignStudentToGroup "a" 2 c)))
    = [student_group_changed (Student.mk "a" "A" (Some 2) ∅) 2].
Proof.
  intros c.
  pose proof (assignStudentToGroup_spec c "a" 3) as (Hiff & Hfail & _).
  pose proof (assignStudentToGroup_spec c "a" 1) as (_ & _ & Hone).
  pose proof (assignStudentToGroup_spec c "a" 2) as (_ & _ & Hok).
  assert (Hfalse : value (assignStudentToGroup "a" 3 c) = false).
  { apply Hiff. right. right. cbn. lia. }
  split; [exact Hfalse |]. split; [exact (Hfail Hfalse) |].
  destruct (Hone (Student.mk "a" "A" None ∅)) as (_ & _ & G1 & _).
  { reflexivity. }
  { cbn. lia. }
  destruct (Hok (Student.mk "a" "A" None ∅)) as (_ & _ & G2 & _ & H2).
  { reflexivity. }
  { cbn. lia. }
  split; [exact G1 |]. split; [exact G2 |]. rewrite H2. reflexivity.
Defined.

(** ** Lab sessions *)





(** C10: [addStudent] replaces the stored record: when the student with id
    [sid] has completed the active lab, adding a record with that id, no
    group and an empty [completedLabs] makes [hasCompletedActiveLab(sid)]
    false, and the stored record no longer has a group. *)
Theorem addStudent_erases_history (c : Classroom.t) (sid name : string) :
  hasCompletedActiveLab sid c = true →
  let c' := after (addStudent (Student.mk sid name None ∅) c) in
  hasCompletedActiveLab sid c' = false
  ∧ getStudent sid c' = Some (Student.mk sid name None ∅)
  ∧ (getStudent sid c' ≫= Student.group) = None.
Proof.
  intros _. cbn. unfold hasCompletedActiveLab, getStudent. cbn.
  rewrite lookup_insert_eq. cbn.
  split; [| split; reflexivity].
  destruct (activeLabSession c); [| reflexivity].
  apply bool_decide_eq_false_2. set_solver.
Qed.

Lemma addStudent_erases_history_witness :
  let c0 := constructor "thread-1" "Classroom" 2 in
  let c1 := after (addStudent (Student.mk "a" "A" None ∅) c0) in
  let c2 := after (assignStudentToGroup "a" 2 c1) in
  let c3 := after (startLab "L1" 1000 1001 c2) in
  let c4 := after (completeLab "a" c3) in
  (getStudent "a" c4 ≫= Student.group) = Some 2
  ∧ hasCompletedActiveLab "a" c4 = true
  ∧ hasCompletedActiveLab "a"
      (after (addStudent (Student.mk "a" "A" None ∅) c4)) = false
  ∧ (getStudent "a" (after (addStudent (Student.mk "a" "A" None ∅) c4))
       ≫= Student.group) = None.
Proof.
  intros c0 c1 c2 c3 c4.
  assert (Hdone : hasCompletedActiveLab "a" c4 = true)
    by (vm_compute; reflexivity).
  split; [vm_compute; reflexivity |].
  split; [exact Hdone |].
  destruct (addStudent_erases_history c4 "a" "A" Hdone) as (H1 & _ & H2).
  split; [exact H1 | exact H2].
Defined.

(** ** Runs: what every reachable classroom satisfies *)

Import Run.

Section Preservation.

Variable o : Call.
Variable c : Classroom.t.

Lemma perform_groups : groups (perform o c).1 = groups c.
Proof.
  destruct o; cbn; try reflexivity.
  - unfold assignStudentToGroup.
    destruct (students c !! studentId); [| reflexivity].
    destruct ((group <? 1) || (groups c <? group)); reflexivity.
  - unfold startLab. destruct (activeLabSession c); reflexivity.
  - unfold completeLab. destruct (activeLabSession c); [| reflexivity].
    destruct (students c !! studentId); reflexivity.
Qed.

(** Sessions are only ever started from the state without one. *)
Lemma perform_sessions :
  option_list (activeLabSession c) ++ started (perform o c).2
  = option_list (activeLabSession (perform o c).1).
Proof.
  destruct o; cbn.
  - apply app_nil_r.
  - unfold assignStudentToGroup.
    destruct (students c !! studentId); [| apply app_nil_r].
    destruct ((group <? 1) || (groups c <? group)); apply app_nil_r.
  - unfold startLab.
    destruct (activeLabSession c) as [l|] eqn:Hl; cbn; rewrite ?Hl;
      reflexivity.
  - unfold completeLab.
    destruct (activeLabSession c) as [l|] eqn:Hl; cbn;
      [| rewrite Hl; reflexivity].
    destruct (students c !! studentId); cbn; rewrite Hl;
      [| reflexivity].
    destruct (negb _); reflexivity.
Qed.

Lemma perform_student_groups :
  group_in_range (groups c) o = true →
  student_groups_ok c → student_groups_ok (perform o c).1.
Proof.
  intros Hadm Hok sid s g.
  destruct o; cbn in *.
  - rewrite lookup_insert. case_decide as Hk.
    + intros [= <-] Hg. rewrite Hg in Hadm. lia.
    + apply Hok.
  - unfold assignStudentToGroup.
    destruct (students c !! studentId) as [st|] eqn:Hst; [| apply Hok].
    destruct (Z.ltb_spec group 1); [apply Hok |].
    destruct (Z.ltb_spec (groups c) group); [apply Hok |]. cbn.
    rewrite lookup_insert. case_decide as Hk.
    + intros [= <-] [= <-]. lia.
    + apply Hok.
  - unfold startLab. destruct (activeLabSession c); apply Hok.
  - unfold completeLab. destruct (activeLabSession c); [| apply Hok].
    destruct (students c !! studentId) as [st|] eqn:Hst; [| apply Hok].
    cbn. rewrite lookup_insert. case_decide as Hk.
    + subst. intros [= <-]. cbn. apply (Hok _ _ _ Hst).
    + apply Hok.
Qed.

End Preservation.

Lemma started_app (l1 l2 : list ClassroomEvent) :
  started (l1 ++ l2) = started l1 ++ started l2.
Proof. apply omap_app. Qed.

Lemma run_invariant (n : Z) (os : list Call) :
  ∀ c : Classroom.t,
    groups c = n →
    forallb (group_in_range n) os = true →
    student_groups_ok c →
    groups (run os c).1 = n
    ∧ student_groups_ok (run os c).1
    ∧ option_list (activeLabSession c) ++ started (run os c).2
      = option_list (activeLabSession (run os c).1).
Proof.
  induction os as [|o os IH]; intros c Hn Hadm Hok; cbn.
  - split; [exact Hn |]. split; [exact Hok | apply app_nil_r].
  - cbn in Hadm. apply andb_true_iff in Hadm as [Ho Hos].
    pose proof (perform_groups o c) as Hg.
    pose proof (perform_sessions o c) as Hs.
    assert (Hok1 : student_groups_ok (perform o c).1).
    { apply perform_student_groups; [rewrite Hn; exact Ho | exact Hok]. }
    destruct (perform o c) as [c1 e1]; cbn [fst snd] in *.
    destruct (IH c1) as (IH1 & IH2 & IH3);
      [congruence | exact Hos | exact Hok1 |].
    destruct (run os c1) as [c2 e2]; cbn [fst snd] in *.
    split; [exact IH1 |]. split; [exact IH2 |].
    rewrite started_app, app_assoc, Hs. exact IH3.
Qed.


(** ** Completion status *)

Lemma perform_nothing_completed_yet (o : Call) (c : Classroom.t) :
  nothing_completed o = true →
  nothing_completed_yet c → nothing_completed_yet (perform o c).1.
Proof.
  intros Hadm Hc. destruct o; cbn in *.
  - intros Hl sid s. cbn in *. rewrite lookup_insert.
    destruct (decide (Student.id student = sid)).
    + intros [= <-]. apply bool_decide_eq_true_1 in Hadm. exact Hadm.
    + intros Hs. exact (Hc Hl _ _ Hs).
  - unfold assignStudentToGroup.
    destruct (students c !! studentId) as [st|] eqn:Hst; [| exact Hc].
    destruct ((group <? 1) || (groups c <? group)); [exact Hc |].
    intros Hl sid s. cbn in *. rewrite lookup_insert. case_decide.
    + subst. intros [= <-]. cbn. apply (Hc Hl _ _ Hst).
    + intros Hs. exact (Hc Hl _ _ Hs).
  - unfold startLab.
    destruct (activeLabSession c) eqn:Hl; [exact Hc |].
    intros [=].
  - unfold completeLab.
    destruct (activeLabSession c) eqn:Hl; [| exact Hc].
    destruct (students c !! studentId); [| exact Hc].
    cbn. intros Hl'. cbn in Hl'. congruence.
Qed.

Lemma run_nothing_completed_yet (os : list Call) :
  ∀ c : Classroom.t,
    forallb nothing_completed os = true →
    nothing_completed_yet c → nothing_completed_yet (run os c).1.
Proof.
  induction os as [|o os IH]; intros c Hadm Hc; cbn; [exact Hc |].
  cbn in Hadm. apply andb_true_iff in Hadm as [Ho Hos].
  pose proof (perform_nothing_completed_yet o c Ho Hc) as Hc1.
  destruct (perform o c) as [c1 e1]; cbn [fst] in *.
  specialize (IH c1 Hos Hc1).
  destruct (run os c1) as [c2 e2]; exact IH.
Qed.

(** C8 as stated fails: with the lab of id "1000" active, [addStudent] of a
    record that already lists "1000" among its completed labs makes
    [hasCompletedActiveLab] true for that student although [completeLab]
    was never called. *)
Lemma hasCompletedActiveLab_true_without_completeLab :
  let os := [callStartLab "L1" 1000 1001] in
  let c := (run os (constructor "thread-1" "Classroom" 1)).1 in
  let o := callAddStudent (Student.mk "a" "A" None {["1000"]}) in
  hasCompletedActiveLab "a" c = false
  ∧ hasCompletedActiveLab "a" (perform o c).1 = true
  ∧ ¬ (o = callCompleteLab "a" ∧ value (completeLab "a" c) = true).
Proof.
  cbn. split; [reflexivity |]. split; [vm_compute; reflexivity |].
  intros [[=] _].
Qed.

(** ** Numbers that are not integers, and shared sets *)

Section ObjectFacts.

Import Objects.






Lemma le_num (x y : Z) : le (num x) (num y) = bool_decide (x ≤ y).
Proof. cbn. apply bool_decide_ext. symmetry. apply Z2Qc_inj_le. Qed.

Lemma lt_num (x y : Z) : lt (num x) (num y) = bool_decide (x < y).
Proof. cbn. apply bool_decide_ext. symmetry. apply Z2Qc_inj_lt. Qed.



Section Step.

Variable o : Call.
Variable c : Objects.t.




End Step.




(** Why [NaN] is kept out: [assignStudentToGroup(id, NaN)] passes the
    guard, returns [true] and stores [NaN] as the group, which lies in no
    range; and [new Classroom(id, name, NaN)] has the group count [NaN]. *)
Example assignStudentToGroup_NaN :
  let os := [callAddStudent (Student.mk "a" "A" None 1) ∅] in
  let c := (run os (constructor "thread-1" "Classroom" (num 1))).1 in
  let r := assignStudentToGroup "a" NaN c in
  value r = true
  ∧ (getStudent "a" (after r) ≫= Student.group) = Some NaN
  ∧ ¬ groups_in_range (after r)
  ∧ groups (constructor "thread-1" "Classroom" NaN) = NaN
  ∧ le (num 1) (groups (constructor "thread-1" "Classroom" NaN)) = false.
Proof.
  cbn. split; [reflexivity |]. split; [reflexivity |].
  split; [| split; reflexivity].
  intros H.
  assert (Hf := H "a" (Student.mk "a" "A" (Some NaN) 1) NaN).
  vm_compute in Hf. specialize (Hf eq_refl eq_refl). discriminate.
Qed.

(** Numbers that are no integers keep the invariant: group 2.5 of 3. *)
Example assignStudentToGroup_fraction :
  let half := finite (Qcanon.Q2Qc (QArith_base.Qmake 5 2)) in
  let os := [callAddStudent (Student.mk "a" "A" None 1) ∅;
             callAssignStudentToGroup "a" half] in
  let c := (run os (constructor "thread-1" "Classroom" (num 3))).1 in
  (getStudent "a" c ≫= Student.group) = Some half
  ∧ in_range (groups c) half = true.
Proof. vm_compute. split; reflexivity. Qed.

Lemma contents_set_sets (c : Objects.t) (h : gmap positive (gset string))
    (ref : positive) :
  contents (set_sets h c) ref = default ∅ (h !! ref).
Proof. reflexivity. Qed.

Lemma perform_unshared (o : Call) (c : Objects.t) :
  new_empty_sets [o] c = true → unshared c → unshared (perform o c).1.
Proof.
  intros Hadm (Hknown & Hinj & Hempty).
  cbn in Hadm. rewrite andb_true_r in Hadm.
  destruct o; cbn.
  - apply andb_true_iff in Hadm as [Hnew Hfresh].
    apply bool_decide_eq_true_1 in Hnew.
    apply bool_decide_eq_true_1 in Hfresh. subst fresh.
    rewrite Hnew.
    assert (Hother : ∀ k s, students c !! k = Some s →
              Student.completedLabs s ≠ Student.completedLabs student).
    { intros k s Hs Heq. destruct (Hknown k s Hs) as [x Hx].
      rewrite Heq, Hnew in Hx. discriminate. }
    split; [| split]; cbn.
    + intros k s. rewrite lookup_insert.
      destruct (decide (Student.id student = k)).
      * intros [= <-]. rewrite lookup_insert_eq. eauto.
      * intros Hs. rewrite lookup_insert_ne; [eauto |].
        intros Heq. exact (Hother k s Hs (eq_sym Heq)).
    + intros k1 k2 s1 s2. rewrite !lookup_insert.
      destruct (decide (Student.id student = k1)) as [H1|H1];
        destruct (decide (Student.id student = k2)) as [H2|H2].
      * congruence.
      * intros [= <-] Hs2 Heq. destruct (Hother k2 s2 Hs2). congruence.
      * intros Hs1 [= <-] Heq. destruct (Hother k1 s1 Hs1). congruence.
      * apply Hinj.
    + intros Hl ref done. rewrite lookup_insert.
      destruct (decide (Student.completedLabs student = ref)).
      * congruence.
      * apply (Hempty Hl).
  - unfold assignStudentToGroup.
    destruct (students c !! studentId) as [st|] eqn:Hst;
      [| exact (conj Hknown (conj Hinj Hempty))].
    destruct (lt group (num 1) || lt (groups c) group);
      [exact (conj Hknown (conj Hinj Hempty)) |].
    assert (Hsame : ∀ k s,
      <[studentId := Student.set_group group st]> (students c) !! k = Some s →
      ∃ s0, students c !! k = Some s0
            ∧ Student.completedLabs s0 = Student.completedLabs s).
    { intros k s. rewrite lookup_insert.
      destruct (decide (studentId = k)) as [<-|Hk].
      - intros [= <-]. eauto.
      - eauto. }
    split; [| split]; cbn.
    + intros k s Hs. destruct (Hsame k s Hs) as (s0 & Hs0 & <-). eauto.
    + intros k1 k2 s1 s2 Hs1 Hs2 Heq.
      destruct (Hsame k1 s1 Hs1) as (t1 & Ht1 & E1).
      destruct (Hsame k2 s2 Hs2) as (t2 & Ht2 & E2).
      apply (Hinj k1 k2 t1 t2 Ht1 Ht2). congruence.
    + exact Hempty.
  - unfold startLab.
    destruct (activeLabSession c) eqn:Hl;
      (split; [exact Hknown |]); (split; [exact Hinj |]); cbn;
      rewrite ?Hl; discriminate.
  - unfold completeLab.
    destruct (activeLabSession c) eqn:Hl;
      [| split; [exact Hknown |]; split; [exact Hinj |];
         intros _; exact (Hempty eq_refl)].
    destruct (students c !! studentId) as [st|] eqn:Hst;
      [| split; [exact Hknown |]; split; [exact Hinj |];
         cbn; rewrite Hl; discriminate].
    split; [| split]; cbn.
    + intros k s Hs. rewrite lookup_insert.
      destruct (decide (Student.completedLabs st = Student.completedLabs s));
        eauto.
    + exact Hinj.
    + rewrite Hl. discriminate.
Qed.

Lemma run_unshared (os : list Call) :
  ∀ c : Objects.t,
    new_empty_sets os c = true → unshared c → unshared (run os c).1.
Proof.
  induction os as [|o os IH]; intros c Hadm Hc; cbn; [exact Hc |].
  cbn in Hadm. apply andb_true_iff in Hadm as [Ho Hos].
  assert (Hc1 : unshared (perform o c).1).
  { apply perform_unshared; [| exact Hc]. cbn. rewrite Ho. reflexivity. }
  destruct (perform o c) as [c1 e1]; cbn [fst] in *.
  specialize (IH c1 Hos Hc1).
  destruct (run os c1) as [c2 e2]; exact IH.
Qed.

Lemma new_empty_sets_app (os os' : list Call) :
  ∀ c : Objects.t,
    new_empty_sets (os ++ os') c
    = new_empty_sets os c && new_empty_sets os' (run os c).1.
Proof.
  induction os as [|o os IH]; intros c; cbn; [reflexivity |].
  rewrite IH. destruct (perform o c) as [c1 e1]; cbn [fst].
  destruct (run os c1) as [c2 e2]; cbn [fst].
  rewrite andb_assoc. reflexivity.
Qed.

Lemma constructor_unshared (id name : string) (input : number) :
  unshared (constructor id name input).
Proof.
  split; [| split]; cbn.
  - intros k s. rewrite lookup_empty. discriminate.
  - intros k1 k2 s1 s2. rewrite lookup_empty. discriminate.
  - intros _ ref done. rewrite lookup_empty. discriminate.
Qed.

(** C8 (as amended): [hasCompletedActiveLab(studentId)] is false when no
    lab session is active or the student id is unknown, and otherwise is
    the membership of the active session's id in the [Set] the student's
    [completedLabs] refers to; it is false on a new classroom, true after a
    successful [completeLab] of that student, and computes its answer
    without changing the classroom (it is a function of it).  In a run in
    which every record handed to [addStudent] brings an empty
    [completedLabs] set that no record handed over before refers to, the
    only call that turns it from false to true for a student is a
    successful [completeLab] of that student. *)
Theorem hasCompletedActiveLab_membership (c : Objects.t) (sid : string) :
  ((activeLabSession c = None ∨ students c !! sid = None) →
     hasCompletedActiveLab sid c = false)
  ∧ (∀ l st, activeLabSession c = Some l → students c !! sid = Some st →
       hasCompletedActiveLab sid c
       = bool_decide
           (LabSession.id l ∈ contents c (Student.completedLabs st)))
  ∧ (∀ id name input,
       hasCompletedActiveLab sid (constructor id name input) = false)
  ∧ (value (completeLab sid c) = true →
       hasCompletedActiveLab sid (after (completeLab sid c)) = true)
  ∧ (∀ id name input os o,
       c = (run os (constructor id name input)).1 →
       new_empty_sets (os ++ [o]) (constructor id name input) = true →
       hasCompletedActiveLab sid c = false →
       hasCompletedActiveLab sid (perform o c).1 = true →
       o = callCompleteLab sid ∧ value (completeLab sid c) = true).
Proof.
  split; [| split; [| split; [| split]]].
  - unfold hasCompletedActiveLab. intros [Hl|Hst].
    + rewrite Hl. reflexivity.
    + rewrite Hst. destruct (activeLabSession c); reflexivity.
  - intros l st Hl Hst. unfold hasCompletedActiveLab.
    rewrite Hl, Hst. reflexivity.
  - reflexivity.
  - unfold completeLab, hasCompletedActiveLab.
    destruct (activeLabSession c) as [l|] eqn:Hl; [| discriminate].
    destruct (students c !! sid) as [st|] eqn:Hst; [| discriminate].
    intros _. cbn [after activeLabSession set_sets students].
    rewrite Hl, Hst, contents_set_sets, lookup_insert_eq.
    apply bool_decide_eq_true_2. set_solver.
  - intros id name input os o Hc Hadm Hfalse Htrue.
    rewrite new_empty_sets_app in Hadm.
    apply andb_true_iff in Hadm as [Hos Ho]. rewrite <- Hc in Ho.
    assert (Hun : unshared c).
    { subst c. apply run_unshared; [exact Hos |].
      apply constructor_unshared. }
    clear Hc Hos. destruct Hun as (Hknown & Hinj & Hempty).
    cbn in Ho. rewrite andb_true_r in Ho.
    unfold hasCompletedActiveLab in *.
    destruct o; cbn in Htrue.
    + exfalso. apply andb_true_iff in Ho as [Hnew Hfresh].
      apply bool_decide_eq_true_1 in Hnew.
      apply bool_decide_eq_true_1 in Hfresh. subst fresh.
      rewrite Hnew in Htrue.
      destruct (activeLabSession c) as [l|]; [| discriminate].
      rewrite lookup_insert in Htrue.
      destruct (decide (Student.id student = sid)) as [Hk|Hk].
      * rewrite contents_set_sets, lookup_insert_eq in Htrue.
        apply bool_decide_eq_true_1 in Htrue. set_solver.
      * destruct (students c !! sid) as [st|] eqn:Hst; [| discriminate].
        rewrite contents_set_sets, lookup_insert_ne in Htrue;
          [unfold contents in Hfalse; congruence |].
        intros Heq. destruct (Hknown sid st Hst) as [x Hx].
        rewrite <- Heq, Hnew in Hx. discriminate.
    + exfalso. unfold assignStudentToGroup in Htrue.
      destruct (students c !! studentId) as [st|] eqn:Hst;
        [| cbn in Htrue; congruence].
      destruct (lt group (num 1) || lt (groups c) group);
        cbn in Htrue; [congruence |].
      destruct (activeLabSession c) as [l|]; [| discriminate].
      rewrite lookup_insert in Htrue. case_decide as Hk.
      * subst. rewrite Hst in Hfalse. cbn in Htrue.
        unfold contents in *. cbn in Htrue. congruence.
      * unfold contents in *. cbn in Htrue. congruence.
    + exfalso. unfold startLab in Htrue.
      destruct (activeLabSession c) as [l|] eqn:Hl; cbn in Htrue;
        rewrite ?Hl in Htrue; [congruence |].
      destruct (students c !! sid) as [st|] eqn:Hst; [| discriminate].
      apply bool_decide_eq_true_1 in Htrue.
      unfold contents in Htrue. cbn in Htrue.
      destruct (sets c !! Student.completedLabs st) as [done|] eqn:Hd;
        cbn in Htrue; [| set_solver].
      rewrite (Hempty eq_refl _ _ Hd) in Htrue. set_solver.
    + unfold completeLab in *.
      destruct (activeLabSession c) as [l|] eqn:Hl; cbn in Htrue;
        rewrite ?Hl in Htrue; [| discriminate].
      destruct (students c !! studentId) as [st|] eqn:Hst; cbn in Htrue;
        rewrite ?Hl in Htrue; [| congruence].
      destruct (students c !! sid) as [st'|] eqn:Hst'; [| discriminate].
      rewrite contents_set_sets, lookup_insert in Htrue.
      destruct (decide (Student.completedLabs st = Student.completedLabs st'))
        as [Heq|Hne]; [| unfold contents in Hfalse; congruence].
      pose proof (Hinj _ _ _ _ Hst Hst' Heq) as ->.
      split; reflexivity.
Qed.

Lemma hasCompletedActiveLab_membership_witness :
  let c0 := constructor "thread-1" "Classroom" (num 2) in
  let c := (run (take 5 sample_run) c0).1 in
  hasCompletedActiveLab "zoe" c = false
  ∧ hasCompletedActiveLab "a" c = false
  ∧ hasCompletedActiveLab "a" (after (completeLab "a" c)) = true
  ∧ new_empty_sets (take 5 sample_run ++ [callCompleteLab "a"]) c0 = true
  ∧ hasCompletedActiveLab "a" (perform (callCompleteLab "a") c).1 = true
  ∧ callCompleteLab "a" = callCompleteLab "a"
  ∧ value (completeLab "a" c) = true.
Proof.
  intros c0 c.
  pose proof (hasCompletedActiveLab_membership c "zoe") as (Hnone & _).
  pose proof (hasCompletedActiveLab_membership c "a")
    as (_ & Hmem & _ & Hdone & Honly).
  assert (Hbefore : hasCompletedActiveLab "a" c = false).
  { rewrite (Hmem (LabSession.mk "1000" "L1" 1001 "thread-1")
               (Student.mk "a" "A" (Some (num 1)) 1));
      vm_compute; reflexivity. }
  assert (Hafter :
    hasCompletedActiveLab "a" (perform (callCompleteLab "a") c).1 = true)
    by (vm_compute; reflexivity).
  assert (Hnew :
    new_empty_sets (take 5 sample_run ++ [callCompleteLab "a"]) c0 = true)
    by (vm_compute; reflexivity).
  split; [apply Hnone; right; vm_compute; reflexivity |].
  split; [exact Hbefore |].
  split; [apply Hdone; vm_compute; reflexivity |].
  split; [exact Hnew |].
  split; [exact Hafter |].
  apply (Honly "thread-1" "Classroom" (num 2) (take 5 sample_run)
           (callCompleteLab "a")).
  - reflexivity.
  - exact Hnew.
  - exact Hbefore.
  - exact Hafter.
Defined.

(** Why the sets must not be shared: two records handed over with one
    empty [Set] between them, and [completeLab] of "a" makes
    [hasCompletedActiveLab] true for "b" as well, whose own [completeLab]
    then emits nothing. *)
Example shared_set_completes_both :
  let c0 := constructor "thread-1" "Classroom" (num 1) in
  let c := (run (take 3 shared_run) c0).1 in
  new_empty_sets (take 1 shared_run) c0 = true
  ∧ new_empty_sets (take 2 shared_run) c0 = false
  ∧ hasCompletedActiveLab "b" c = false
  ∧ hasCompletedActiveLab "b" (perform (callCompleteLab "a") c).1 = true
  ∧ emitted (completeLab "b" (perform (callCompleteLab "a") c).1) = [].
Proof. vm_compute. repeat split; reflexivity. Qed.

End ObjectFacts.

(** ** The auto-updating reply *)

Import AutoUpdate.

Lemma remove_all_listeners (table : list Listener) :
  filter (λ h, h ≠ onLabCompleted)
    (filter (λ h, h ≠ onStudentGroupChanged)
       (filter (λ h, h ≠ onStudentAdded) table)) = [].
Proof.
  induction table as [|h table IH]; [reflexivity |].
  destruct h; cbn; exact IH.
Qed.

Lemma release_torn_down (s : AutoUpdate.t) : torn_down (release s).
Proof.
  unfold torn_down, release, removeEventListeners, subscriptions.
  destruct s as [[table|] ? ? ? ? ? ? ? ? ? ?]; cbn; [| auto].
  split; [reflexivity | apply remove_all_listeners].
Qed.

Lemma release_timeouts (s : AutoUpdate.t) :
  timeouts (release s) = timeouts s.
Proof.
  unfold release, removeEventListeners.
  destruct s as [[table|] ? ? ? ? ? ? ? ? ? ?]; reflexivity.
Qed.

Lemma performUpdate_timeouts reason now io (s : AutoUpdate.t) :
  timeouts (performUpdate reason now io s) = timeouts s.
Proof.
  unfold performUpdate.
  destruct (_ <=? now); destruct io; cbn;
    rewrite ?release_timeouts; reflexivity.
Qed.

(** X24: on each exit path of a session, (a) a refresh that finds
    [now ≥ endTime], (b) the timer of the time limit firing, (c) a refresh
    whose render or post throws, the interval timer is cancelled and the
    three listeners are removed from the classroom. *)
Theorem exit_paths_tear_down (s : AutoUpdate.t) :
  (∀ reason now io,
     endTime s ≤ now → torn_down (performUpdate reason now io s))
  ∧ (∀ n timer now io,
       timeouts s !! n = Some timer →
       callback timer = cleanupAtLimit →
       due timer ≤ now →
       torn_down (handle (timeoutFires n now io) s))
  ∧ (∀ reason now io,
       io ≠ ioOk → torn_down (performUpdate reason now io s)).
Proof.
  split; [| split].
  - intros reason now io Hend. unfold performUpdate. cbn.
    destruct (Z.leb_spec (endTime s) now); [| lia].
    destruct io; apply release_torn_down.
  - intros n timer now io Hn Hcb Hdue. cbn. rewrite Hn, Hcb.
    destruct (Z.leb_spec (due timer) now); [| lia].
    apply release_torn_down.
  - intros reason now io Hio. unfold performUpdate. cbn.
    destruct (_ <=? now); destruct io; try congruence;
      apply release_torn_down.
Qed.

Lemma exit_paths_tear_down_witness :
  torn_down (performUpdate "scheduled" 900000 ioOk fresh_session)
  ∧ torn_down (handle (timeoutFires 0 900000 ioOk) fresh_session)
  ∧ torn_down (performUpdate "scheduled" 30000 editReplyThrows fresh_session).
Proof.
  pose proof (exit_paths_tear_down fresh_session) as (Ha & Hb & Hc).
  split; [| split].
  - apply Ha. vm_compute. discriminate.
  - apply (Hb 0%nat (mkTimeout 0 DEFAULT_UPDATE_LIMIT cleanupAtLimit)).
    + reflexivity.
    + reflexivity.
    + vm_compute. discriminate.
  - apply Hc. discriminate.
Defined.

(** C3: the exit paths, commented "Clean up all resources" and "Stop
    updates on error to prevent repeated failures", cancel the interval
    timer and remove the listeners, but nothing cancels the timeout
    [queueUpdate] has set: its handle is not kept.  In [last_minute_run]
    the completion at 896 s sets a deferred refresh for 905 s; the timer
    of the time limit tears the session down at 900 s; the deferred
    refresh is still registered then, so not every timer of the session is
    released, and at 905 s it fires and posts. *)
Lemma deferred_update_survives_teardown :
  let s := run last_minute_run fresh_session in
  torn_down s
  ∧ timeouts s = [deferred "lab-completed" 896000 895000]
  ∧ ¬ all_released s
  ∧ replies (handle (timeoutFires 0 905000 ioOk) s)
    = replies s ++ [finalReply 32].
Proof.
  assert (Ht : timeouts (run last_minute_run fresh_session)
               = [deferred "lab-completed" 896000 895000])
    by (vm_compute; reflexivity).
  cbv zeta. split; [| split; [exact Ht | split]].
  - split; vm_compute; reflexivity.
  - intros [_ Hnone]. rewrite Ht in Hnone. discriminate.
  - vm_compute. reflexivity.
Qed.

(** The same on the error path: in [failed_post_run] a notification at
    1 s sets a deferred refresh for 10 s, the refresh of the interval timer
    at 3 s fails to post and tears the session down, and at 10 s the
    deferred refresh posts an update all the same. *)
Example deferred_update_survives_error :
  let s := run (take 2 failed_post_run) short_interval_session in
  torn_down s
  ∧ timeouts s
    = [mkTimeout 0 DEFAULT_UPDATE_LIMIT cleanupAtLimit;
       deferred "student-joined" 1000 0]
  ∧ replies s = [initialReply]
  ∧ replies (run failed_post_run short_interval_session)
    = [initialReply; updateReply 15 3 "student-joined"].
Proof. vm_compute. repeat split; reflexivity. Qed.

Section Gate.

Variables (s : AutoUpdate.t) (reason : string) (now now' : Z) (io : Io).

Lemma queueUpdate_defers :
  now - lastUpdateTime s < MIN_UPDATE_INTERVAL → pendingUpdate s = false →
  queueUpdate reason now now' io s
  = setTimeout (deferredUpdate reason)
      (MIN_UPDATE_INTERVAL - (now - lastUpdateTime s)) now
      (set_pendingUpdate true s).
Proof.
  intros Hel Hp. unfold queueUpdate. rewrite Hp.
  destruct (Z.ltb_spec (now - lastUpdateTime s) MIN_UPDATE_INTERVAL);
    [reflexivity | lia].
Qed.

Lemma queueUpdate_pending :
  pendingUpdate s = true →
  timeouts (queueUpdate reason now now' io s) = timeouts s
  ∧ (now - lastUpdateTime s < MIN_UPDATE_INTERVAL →
     queueUpdate reason now now' io s = s).
Proof.
  intros Hp. unfold queueUpdate. rewrite Hp.
  destruct (Z.ltb_spec (now - lastUpdateTime s) MIN_UPDATE_INTERVAL); cbn.
  - auto.
  - rewrite performUpdate_timeouts. split; [reflexivity | lia].
Qed.

Lemma queueUpdate_immediate :
  MIN_UPDATE_INTERVAL ≤ now - lastUpdateTime s →
  queueUpdate reason now now' io s = performUpdate reason now' io s.
Proof.
  intros Hel. unfold queueUpdate.
  destruct (Z.ltb_spec (now - lastUpdateTime s) MIN_UPDATE_INTERVAL);
    [lia | reflexivity].
Qed.

Lemma performUpdate_refreshes :
  now < endTime s →
  performUpdate reason now ioOk s
  = set_pendingUpdate false
      (set_lastUpdateTime now
         (editReply
            (updateReply (ceil_minutes (endTime s - now))
               (updateCount s + 1 + 1) reason)
            (set_updateCount (updateCount s + 1) s))).
Proof.
  intros Hend. unfold performUpdate. cbn [endTime set_updateCount].
  destruct (Z.leb_spec (endTime s) now); [lia | reflexivity].
Qed.

End Gate.

Lemma handle_notified (h : Listener) (now now' : Z) (io : Io)
  (s : AutoUpdate.t) :
  h ∈ subscriptions s →
  handle (notified h now now' io) s = queueUpdate (reason_of h) now now' io s.
Proof.
  intros Hsub. cbn. rewrite (bool_decide_eq_true_2 _ Hsub). reflexivity.
Qed.

(** ** The gate of [queueUpdate], await by await *)

Section AwaitByAwait.

Import Async.

Lemma lookup_last_flight (fs : list Flight.t) (f : Flight.t) :
  (fs ++ [f]) !! length fs = Some f.
Proof. apply list_lookup_middle. reflexivity. Qed.

Lemma alter_last_flight (g : Flight.t → Flight.t) (fs : list Flight.t)
    (f : Flight.t) :
  alter g (length fs) (fs ++ [f]) = fs ++ [g f].
Proof.
  replace (length fs) with (length fs + 0)%nat by lia.
  rewrite alter_app_r. reflexivity.
Qed.

Lemma afterGenerateEmbed_none (i : nat) (ok : bool) (a : Async.t) :
  flights a !! i = None → afterGenerateEmbed i ok a = a.
Proof. intros H. unfold afterGenerateEmbed. rewrite H. reflexivity. Qed.

Lemma afterEditReply_none (i : nat) (ok : bool) (a : Async.t) :
  flights a !! i = None → afterEditReply i ok a = a.
Proof. intros H. unfold afterEditReply. rewrite H. reflexivity. Qed.

Lemma uninterrupted_none (io : Io) (i : nat) (a : Async.t) :
  flights a !! i = None → run (uninterrupted io i) a = a.
Proof.
  intros H. destruct io; cbn;
    rewrite ?afterGenerateEmbed_none, ?afterEditReply_none by exact H;
    reflexivity.
Qed.

Lemma afterGenerateEmbed_last (s : AutoUpdate.t) (fs : list Flight.t)
    (reason : string) (now : Z) (final ok : bool) :
  afterGenerateEmbed (length fs) ok
    (Async.mk s (fs ++ [Flight.mk reason now final rendering]))
  = if ok then
      Async.mk s
        (fs ++ [Flight.mk reason now final
                  (posting
                     (if final then finalReply (updateCount s + 1)
                      else updateReply (ceil_minutes (endTime s - now))
                             (updateCount s + 1) reason))])
    else Async.mk (release s) (fs ++ [Flight.mk reason now final settled]).
Proof.
  unfold afterGenerateEmbed. cbn [flights].
  rewrite lookup_last_flight. cbn [Flight.stage].
  destruct ok; unfold set_stage, set_session; cbn [flights session];
    rewrite alter_last_flight; reflexivity.
Qed.

Lemma afterEditReply_last (s : AutoUpdate.t) (fs : list Flight.t)
    (reason : string) (now : Z) (final ok : bool) (r : Reply) :
  afterEditReply (length fs) ok
    (Async.mk s (fs ++ [Flight.mk reason now final (posting r)]))
  = Async.mk
      (if ok then
         if final then release (editReply r s)
         else set_pendingUpdate false (set_lastUpdateTime now (editReply r s))
       else release s)
      (fs ++ [Flight.mk reason now final settled]).
Proof.
  unfold afterEditReply. cbn [flights].
  rewrite lookup_last_flight. cbn [Flight.stage].
  unfold set_stage, set_session; cbn [flights session].
  rewrite alter_last_flight. reflexivity.
Qed.

(** With nothing in between, the three stretches of [performUpdate] are
    [AutoUpdate.performUpdate]. *)
Lemma uninterrupted_performUpdate (io : Io) (reason : string) (now : Z)
    (a : Async.t) :
  run (uninterrupted io (length (flights a))) (performUpdate reason now a)
  = Async.mk (AutoUpdate.performUpdate reason now io (session a))
      (flights a
       ++ [Flight.mk reason now (endTime (session a) <=? now) settled]).
Proof.
  destruct a as [s fs]. unfold performUpdate, AutoUpdate.performUpdate.
  cbn [session flights].
  change (endTime (set_updateCount (updateCount s + 1) s)) with (endTime s).
  destruct io; cbn [uninterrupted run foldl handle];
    rewrite afterGenerateEmbed_last; rewrite ?afterEditReply_last;
    destruct (endTime s <=? now); reflexivity.
Qed.

(** So a run of the session above is the run in which every refresh is
    left alone until it has returned. *)
Lemma stretched_handle (e : AutoUpdate.Occurrence) (a : Async.t) :
  session (run (stretched e (length (flights a))) a)
  = AutoUpdate.handle e (session a).
Proof.
  assert (Hnone : flights a !! length (flights a) = None)
    by (apply lookup_ge_None; lia).
  destruct e as [now io|n now io|h now now' io];
    cbn [stretched AutoUpdate.handle];
    change (run (?e :: ?es) a) with (run es (handle e a));
    cbn [handle].
  - destruct (intervalId (session a)).
    + rewrite uninterrupted_performUpdate. reflexivity.
    + rewrite uninterrupted_none by exact Hnone. reflexivity.
  - destruct (timeouts (session a) !! n) as [timer|];
      [| rewrite uninterrupted_none by exact Hnone; reflexivity].
    destruct (due timer <=? now);
      [| rewrite uninterrupted_none by exact Hnone; reflexivity].
    destruct (callback timer).
    + change (length (flights a))
        with (length (flights (set_session
                (set_timeouts (delete n (timeouts (session a))) (session a))
                a))).
      rewrite uninterrupted_performUpdate. reflexivity.
    + rewrite uninterrupted_none by exact Hnone. reflexivity.
  - destruct (bool_decide (h ∈ subscriptions (session a)));
      [| rewrite uninterrupted_none by exact Hnone; reflexivity].
    unfold queueUpdate, AutoUpdate.queueUpdate.
    destruct (_ <? _).
    + destruct (negb _);
        rewrite uninterrupted_none by exact Hnone; reflexivity.
    + rewrite uninterrupted_performUpdate. reflexivity.
Qed.

Lemma run_uninterrupted_session (es : list AutoUpdate.Occurrence) :
  ∀ a : Async.t,
    session (run_uninterrupted es a) = AutoUpdate.run es (session a).
Proof.
  induction es as [|e es IH]; intros a; [reflexivity |].
  change (run_uninterrupted (e :: es) a)
    with (run_uninterrupted es (run (stretched e (length (flights a))) a)).
  rewrite IH, stretched_handle. reflexivity.
Qed.

Section Gate.

Variables (a : Async.t) (reason : string) (now now' : Z).




End Gate.





(** The same when both notifications come in one tick, as when a button
    press registers a student and assigns the group: the gate lets both
    through, since [lastUpdateTime] is written only when a refresh has
    gone through, and both footers carry the number 3. *)
Example one_tick_two_refreshes :
  replies (session (run one_tick_run fresh))
  = [initialReply;
     updateReply 15 3 "student-joined";
     updateReply 15 3 "group-changed"]
  ∧ timeouts (session (run one_tick_run fresh)) = timeouts fresh_session
  ∧ updateCount (session (run one_tick_run fresh)) = 2.
Proof. vm_compute. repeat split; reflexivity. Qed.

End AwaitByAwait.

(** * Further properties of the classroom *)

Import Notify.

Lemma perform_keys_ok (o : Call) (c : Classroom.t) :
  keys_ok c → keys_ok (perform o c).1.
Proof.
  intros Hc k s. destruct o; cbn.
  - rewrite lookup_insert.
    destruct (decide (Student.id student = k)) as [<-|Hk].
    + intros [= <-]. reflexivity.
    + apply Hc.
  - unfold assignStudentToGroup.
    destruct (students c !! studentId) as [st|] eqn:Hst; [| apply Hc].
    destruct ((group <? 1) || (groups c <? group)); [apply Hc |]. cbn.
    rewrite lookup_insert. destruct (decide (studentId = k)) as [<-|Hk].
    + intros [= <-]. cbn. apply (Hc _ _ Hst).
    + apply Hc.
  - unfold startLab. destruct (activeLabSession c); apply Hc.
  - unfold completeLab. destruct (activeLabSession c); [| apply Hc].
    destruct (students c !! studentId) as [st|] eqn:Hst; [| apply Hc]. cbn.
    rewrite lookup_insert. destruct (decide (studentId = k)) as [<-|Hk].
    + intros [= <-]. cbn. apply (Hc _ _ Hst).
    + apply Hc.
Qed.

Lemma run_keys_ok (os : list Call) :
  ∀ c : Classroom.t, keys_ok c → keys_ok (Run.run os c).1.
Proof.
  induction os as [|o os IH]; intros c Hc; cbn; [exact Hc |].
  pose proof (perform_keys_ok o c Hc) as Hc1.
  destruct (perform o c) as [c1 e1]; cbn [fst] in *.
  specialize (IH c1 Hc1).
  destruct (Run.run os c1) as [c2 e2]; exact IH.
Qed.

(** X1: in every classroom reached from construction by calls of the four
    operations, whatever their arguments, each student record is stored
    under its own id. *)
Theorem stored_under_own_id
  (id name : string) (input : Z) (os : list Call) :
  ∀ (k : string) (s : Student.t),
    students (Run.run os (constructor id name input)).1 !! k = Some s →
    Student.id s = k.
Proof.
  apply run_keys_ok. intros k s. cbn. rewrite lookup_empty. discriminate.
Qed.

Lemma stored_under_own_id_witness :
  students (Run.run sample_run (constructor "thread-1" "Classroom" 2)).1
    !! "a"
  = Some (Student.mk "a" "A" (Some 1) {["1000"]})
  ∧ Student.id (Student.mk "a" "A" (Some 1) {["1000"]}) = "a".
Proof.
  assert (H : students
                (Run.run sample_run (constructor "thread-1" "Classroom" 2)).1
                !! "a"
              = Some (Student.mk "a" "A" (Some 1) {["1000"]}))
    by (vm_compute; reflexivity).
  split; [exact H |].
  exact (stored_under_own_id "thread-1" "Classroom" 2 sample_run "a" _ H).
Defined.

Lemma perform_identity (o : Call) (c : Classroom.t) :
  Classroom.id (perform o c).1 = Classroom.id c
  ∧ Classroom.name (perform o c).1 = Classroom.name c
  ∧ dom (students c) ⊆ dom (students (perform o c).1).
Proof.
  destruct o; cbn.
  - repeat split. rewrite dom_insert. set_solver.
  - unfold assignStudentToGroup.
    destruct (students c !! studentId) as [st|] eqn:Hst; [| done].
    destruct ((group <? 1) || (groups c <? group)); [done |]. cbn.
    repeat split. rewrite dom_insert. set_solver.
  - unfold startLab. destruct (activeLabSession c); done.
  - unfold completeLab. destruct (activeLabSession c); [| done].
    destruct (students c !! studentId) as [st|] eqn:Hst; [| done]. cbn.
    repeat split. rewrite dom_insert. set_solver.
Qed.

Lemma run_identity (os : list Call) :
  ∀ c : Classroom.t,
    Classroom.id (Run.run os c).1 = Classroom.id c
    ∧ Classroom.name (Run.run os c).1 = Classroom.name c
    ∧ groups (Run.run os c).1 = groups c
    ∧ dom (students c) ⊆ dom (students (Run.run os c).1).
Proof.
  induction os as [|o os IH]; intros c; cbn; [done |].
  pose proof (perform_identity o c) as (Hid & Hname & Hdom).
  pose proof (perform_groups o c) as Hg.
  destruct (perform o c) as [c1 e1]; cbn [fst] in *.
  destruct (IH c1) as (IH1 & IH2 & IH3 & IH4).
  destruct (Run.run os c1) as [c2 e2]; cbn [fst] in *.
  repeat split; try congruence.
  transitivity (dom (students c1)); assumption.
Qed.

(** X2: no sequence of calls changes the classroom's id, name or number of
    groups, and none removes a student from the mapping. *)
Theorem run_keeps_identity (os : list Call) (c : Classroom.t) :
  Classroom.id (Run.run os c).1 = Classroom.id c
  ∧ Classroom.name (Run.run os c).1 = Classroom.name c
  ∧ groups (Run.run os c).1 = groups c
  ∧ dom (students c) ⊆ dom (students (Run.run os c).1).
Proof. apply run_identity. Qed.

(** X3: an active lab session is never replaced or cleared: once
    [activeLabSession] is set, after any sequence of calls it is the same
    session and no [lab-started] notification has been emitted. *)
Theorem active_session_is_permanent
  (os : list Call) (c : Classroom.t) (l : LabSession.t) :
  activeLabSession c = Some l →
  activeLabSession (Run.run os c).1 = Some l
  ∧ started (Run.run os c).2 = [].
Proof.
  revert c. induction os as [|o os IH]; intros c Hl; cbn; [done |].
  pose proof (perform_sessions o c) as Hs. rewrite Hl in Hs.
  destruct (perform o c) as [c1 e1]; cbn [fst snd] in *.
  assert (Hl1 : activeLabSession c1 = Some l ∧ started e1 = []).
  { destruct (activeLabSession c1) as [l1|]; cbn in Hs;
      [| discriminate].
    injection Hs as -> He. auto. }
  destruct Hl1 as [Hl1 He1].
  destruct (IH c1 Hl1) as [IH1 IH2].
  destruct (Run.run os c1) as [c2 e2]; cbn [fst snd] in *.
  split; [exact IH1 |]. rewrite started_app, He1, IH2. reflexivity.
Qed.

Lemma active_session_is_permanent_witness :
  let c := (Run.run (take 5 sample_run)
              (constructor "thread-1" "Classroom" 2)).1 in
  let l := LabSession.mk "1000" "L1" 1001 "thread-1" in
  activeLabSession c = Some l
  ∧ activeLabSession
      (Run.run [callCompleteLab "a"; callStartLab "L2" 2000 2001] c).1
    = Some l.
Proof.
  intros c l.
  assert (Hl : activeLabSession c = Some l) by (vm_compute; reflexivity).
  split; [exact Hl |].
  exact (proj1 (active_session_is_permanent
                  [callCompleteLab "a"; callStartLab "L2" 2000 2001] c l Hl)).
Defined.

Section OtherStudents.

Import Objects.

(** X4: [assignStudentToGroup] for one student leaves the record of every
    other student, every [completedLabs] set and so every answer of
    [hasCompletedActiveLab] as they were.  [completeLab] changes no
    record, and of the sets only the one its student's record refers to,
    which gets the id of the active lab: the answer of
    [hasCompletedActiveLab] for another student stays as it was if that
    student's record refers to another set, and becomes true along with
    the call's success if it refers to the same one.  Neither call adds or
    removes a student or touches the active lab session. *)
Theorem only_own_set_changes (c : Objects.t) (sid : string) (g : number) :
  let c1 := after (assignStudentToGroup sid g c) in
  let c2 := after (completeLab sid c) in
  dom (students c1) = dom (students c)
  ∧ sets c1 = sets c
  ∧ activeLabSession c1 = activeLabSession c
  ∧ (∀ k, k ≠ sid → students c1 !! k = students c !! k)
  ∧ (∀ k, hasCompletedActiveLab k c1 = hasCompletedActiveLab k c)
  ∧ students c2 = students c
  ∧ activeLabSession c2 = activeLabSession c
  ∧ (∀ ref,
       (∀ st, students c !! sid = Some st →
              ref ≠ Student.completedLabs st) →
       sets c2 !! ref = sets c !! ref)
  ∧ (∀ st l, students c !! sid = Some st → activeLabSession c = Some l →
       contents c2 (Student.completedLabs st)
       = {[LabSession.id l]} ∪ contents c (Student.completedLabs st))
  ∧ (∀ k st sk, students c !! sid = Some st → students c !! k = Some sk →
       hasCompletedActiveLab k c2
       = if decide (Student.completedLabs sk = Student.completedLabs st)
         then value (completeLab sid c)
         else hasCompletedActiveLab k c).
Proof.
  cbn zeta.
  assert (H1 :
    dom (students (after (assignStudentToGroup sid g c))) = dom (students c)
    ∧ sets (after (assignStudentToGroup sid g c)) = sets c
    ∧ activeLabSession (after (assignStudentToGroup sid g c))
      = activeLabSession c
    ∧ (∀ k, k ≠ sid →
         students (after (assignStudentToGroup sid g c)) !! k
         = students c !! k)
    ∧ (∀ k, hasCompletedActiveLab k (after (assignStudentToGroup sid g c))
            = hasCompletedActiveLab k c)).
  { unfold assignStudentToGroup.
    destruct (students c !! sid) as [st|] eqn:Hst; [| by repeat apply conj].
    destruct (lt g (num 1) || lt (groups c) g); [by repeat apply conj |].
    cbn. repeat apply conj; try reflexivity.
    - rewrite dom_insert_L.
      apply subseteq_union_1_L, singleton_subseteq_l, elem_of_dom. eauto.
    - intros k Hk. apply lookup_insert_ne. congruence.
    - intros k. unfold hasCompletedActiveLab. cbn.
      destruct (activeLabSession c); [| reflexivity].
      rewrite lookup_insert. destruct (decide (sid = k)) as [<-|Hk].
      + rewrite Hst. reflexivity.
      + reflexivity. }
  destruct H1 as (A1 & A2 & A3 & A4 & A5).
  repeat apply conj; try assumption.
  - unfold completeLab. destruct (activeLabSession c); [| reflexivity].
    destruct (students c !! sid); reflexivity.
  - unfold completeLab. destruct (activeLabSession c) eqn:Hl; [| exact Hl].
    destruct (students c !! sid); exact Hl.
  - intros ref Href. unfold completeLab.
    destruct (activeLabSession c); [| reflexivity].
    destruct (students c !! sid) as [st|]; [| reflexivity].
    cbn. apply lookup_insert_ne. intros Heq.
    exact (Href st eq_refl (eq_sym Heq)).
  - intros st l Hst Hl. unfold completeLab. rewrite Hl, Hst.
    cbn [after]. rewrite contents_set_sets, lookup_insert_eq. reflexivity.
  - intros k st sk Hst Hsk. unfold completeLab, hasCompletedActiveLab.
    destruct (activeLabSession c) as [l|] eqn:Hl.
    + rewrite Hst. cbn [after value activeLabSession students set_sets].
      rewrite Hl, Hsk, contents_set_sets, lookup_insert.
      destruct (decide (Student.completedLabs st = Student.completedLabs sk))
        as [Heq|Hne].
      * rewrite decide_True by congruence.
        apply bool_decide_eq_true_2. simpl.
        apply elem_of_union_l, elem_of_singleton. reflexivity.
      * rewrite decide_False by congruence. reflexivity.
    + cbn. rewrite Hl. destruct (decide _); reflexivity.
Qed.

Lemma only_own_set_changes_witness :
  let c0 := constructor "thread-1" "Classroom" (num 2) in
  let c := (run (take 5 sample_run) c0).1 in
  let c' := (run (take 3 shared_run) c0).1 in
  students (after (assignStudentToGroup "a" (num 2) c)) !! "b"
  = students c !! "b"
  ∧ hasCompletedActiveLab "b" (after (completeLab "a" c)) = false
  ∧ hasCompletedActiveLab "b" (after (completeLab "a" c')) = true.
Proof.
  intros c0 c c'.
  pose proof (only_own_set_changes c "a" (num 2))
    as (_ & _ & _ & H & _ & _ & _ & _ & _ & Hc).
  pose proof (only_own_set_changes c' "a" (num 2))
    as (_ & _ & _ & _ & _ & _ & _ & _ & _ & Hc').
  split; [apply (H "b"); discriminate |]. split.
  - rewrite (Hc "b" (Student.mk "a" "A" (Some (num 1)) 1)
               (Student.mk "b" "B" (Some (num 2)) 2));
      vm_compute; reflexivity.
  - rewrite (Hc' "b" (Student.mk "a" "A" None 1)
               (Student.mk "b" "B" None 1));
      vm_compute; reflexivity.
Defined.

End OtherStudents.

Lemma completeLab_when_completed (c : Classroom.t) (sid : string) :
  hasCompletedActiveLab sid c = true →
  completeLab sid c = mkStep true c [].
Proof.
  unfold hasCompletedActiveLab, completeLab.
  destruct (activeLabSession c) as [l|] eqn:Hl; [| discriminate].
  destruct (students c !! sid) as [st|] eqn:Hst; [| discriminate].
  intros Hin. rewrite Hin. cbn. apply bool_decide_eq_true_1 in Hin.
  assert (Hsame : Student.add_completed (LabSession.id l) st = st).
  { destruct st as [i n gr done]. unfold Student.add_completed. cbn in *.
    f_equal. apply subseteq_union_1_L, singleton_subseteq_l. exact Hin. }
  rewrite Hsame, (insert_id _ _ _ Hst).
  destruct c; reflexivity.
Qed.

(** X7: for a student who has completed the active lab, [completeLab] is a
    no-op that returns true: the classroom is unchanged and nothing is
    emitted. *)
Theorem completeLab_repeat_is_noop (c : Classroom.t) (sid : string) :
  hasCompletedActiveLab sid c = true →
  completeLab sid c = mkStep true c [].
Proof.
  apply completeLab_when_completed.
Qed.

Lemma completeLab_repeat_is_noop_witness :
  let c := (Run.run (take 6 sample_run)
              (constructor "thread-1" "Classroom" 2)).1 in
  hasCompletedActiveLab "a" c = true
  ∧ completeLab "a" c = mkStep true c [].
Proof.
  intros c.
  assert (H : hasCompletedActiveLab "a" c = true) by (vm_compute; reflexivity).
  split; [exact H | exact (completeLab_repeat_is_noop c "a" H)].
Defined.

Lemma hasCompletedActiveLab_fmap (k : string) (c : Classroom.t) :
  hasCompletedActiveLab k c
  = match activeLabSession c,
          (Student.completedLabs <$> students c) !! k with
    | Some l, Some done => bool_decide (LabSession.id l ∈ done)
    | _, _ => false
    end.
Proof.
  unfold hasCompletedActiveLab. rewrite lookup_fmap.
  destruct (activeLabSession c); [| reflexivity].
  destruct (students c !! k); reflexivity.
Qed.

Lemma assignStudentToGroup_keeps_fields
  (c : Classroom.t) (sid : string) (g : Z) :
  let c1 := after (assignStudentToGroup sid g c) in
  Student.completedLabs <$> students c1 = Student.completedLabs <$> students c
  ∧ Student.name <$> students c1 = Student.name <$> students c
  ∧ activeLabSession c1 = activeLabSession c.
Proof.
  cbv zeta. unfold assignStudentToGroup.
  destruct (students c !! sid) as [st|] eqn:Hst; [| done].
  destruct ((g <? 1) || (groups c <? g)); [done |]. cbn.
  repeat split; apply map_eq; intros k;
    rewrite !lookup_fmap, lookup_insert;
    (destruct (decide (sid = k)) as [<-|]; [rewrite Hst |]; reflexivity).
Qed.

Lemma assignStudentToGroup_keeps_completion
  (c : Classroom.t) (sid : string) (g : Z) (k : string) :
  hasCompletedActiveLab k (after (assignStudentToGroup sid g c))
  = hasCompletedActiveLab k c.
Proof.
  destruct (assignStudentToGroup_keeps_fields c sid g) as (H1 & _ & H3).
  rewrite !hasCompletedActiveLab_fmap, H1, H3. reflexivity.
Qed.

(** X8: group assignment and lab completion do not interfere:
    [assignStudentToGroup] changes nobody's name or completed labs (so no
    answer of [hasCompletedActiveLab] changes), and [completeLab] changes
    nobody's name or group. *)
Theorem assignment_and_completion_independent
  (c : Classroom.t) (sid : string) (g : Z) :
  let c1 := after (assignStudentToGroup sid g c) in
  let c2 := after (completeLab sid c) in
  Student.completedLabs <$> students c1 = Student.completedLabs <$> students c
  ∧ Student.name <$> students c1 = Student.name <$> students c
  ∧ (∀ k, hasCompletedActiveLab k c1 = hasCompletedActiveLab k c)
  ∧ Student.group <$> students c2 = Student.group <$> students c
  ∧ Student.name <$> students c2 = Student.name <$> students c.
Proof.
  cbv zeta.
  assert (Hf : ∀ {B} (f : Student.t → B) (m : gmap string Student.t) st st',
             m !! sid = Some st → f st' = f st →
             f <$> <[sid := st']> m = f <$> m).
  { intros B f m st st' Hst Hfst. apply map_eq. intros k.
    rewrite !lookup_fmap, lookup_insert.
    destruct (decide (sid = k)) as [<-|]; [| reflexivity].
    rewrite Hst. cbn. congruence. }
  destruct (assignStudentToGroup_keeps_fields c sid g) as (H1 & H2 & H3).
  split; [exact H1 |]. split; [exact H2 |]. split.
  { intros k. apply assignStudentToGroup_keeps_completion. }
  unfold completeLab.
  destruct (activeLabSession c) as [l|]; [| done].
  destruct (students c !! sid) as [st|] eqn:Hst; [| done]. cbn.
  split; apply (Hf _ _ _ st); done.
Qed.

Lemma perform_grows (o : Call) (c : Classroom.t) (k : string)
  (s : Student.t) :
  adds k o = false →
  students c !! k = Some s →
  ∃ s', students (perform o c).1 !! k = Some s'
        ∧ Student.id s' = Student.id s
        ∧ Student.name s' = Student.name s
        ∧ Student.completedLabs s ⊆ Student.completedLabs s'.
Proof.
  intros Ho Hs. destruct o; cbn in *.
  - apply bool_decide_eq_false_1 in Ho.
    rewrite lookup_insert_ne by exact Ho. eauto.
  - unfold assignStudentToGroup.
    destruct (students c !! studentId) as [st|] eqn:Hst; [| eauto].
    destruct ((group <? 1) || (groups c <? group)); [eauto |]. cbn.
    rewrite lookup_insert. destruct (decide (studentId = k)) as [<-|Hk].
    + rewrite Hst in Hs. injection Hs as <-.
      eexists. split; [reflexivity |]. cbn. repeat split; reflexivity.
    + eauto.
  - unfold startLab. destruct (activeLabSession c); eauto.
  - unfold completeLab. destruct (activeLabSession c) as [l|]; [| eauto].
    destruct (students c !! studentId) as [st|] eqn:Hst; [| eauto]. cbn.
    rewrite lookup_insert. destruct (decide (studentId = k)) as [<-|Hk].
    + rewrite Hst in Hs. injection Hs as <-.
      eexists. split; [reflexivity |]. cbn.
      repeat split; try reflexivity. apply union_subseteq_r.
    + eauto.
Qed.

(** X5: as long as no record with a student's id is handed to [addStudent]
    again, the student stays in the mapping with the same id and name, and
    the set of completed labs only grows. *)
Theorem completed_labs_only_grow (os : list Call) :
  ∀ (c : Classroom.t) (k : string) (s : Student.t),
    forallb (λ o, negb (adds k o)) os = true →
    students c !! k = Some s →
    ∃ s', students (Run.run os c).1 !! k = Some s'
          ∧ Student.id s' = Student.id s
          ∧ Student.name s' = Student.name s
          ∧ Student.completedLabs s ⊆ Student.completedLabs s'.
Proof.
  induction os as [|o os IH]; intros c k s Hos Hs; cbn.
  - exists s. repeat split; done.
  - cbn in Hos. apply andb_true_iff in Hos as [Ho Hos].
    apply negb_true_iff in Ho.
    destruct (perform_grows o c k s Ho Hs) as (s1 & Hs1 & Hid & Hname & Hsub).
    destruct (perform o c) as [c1 e1]; cbn [fst] in *.
    destruct (IH c1 k s1 Hos Hs1) as (s2 & Hs2 & Hid2 & Hname2 & Hsub2).
    destruct (Run.run os c1) as [c2 e2]; cbn [fst] in *.
    exists s2. repeat split; try congruence.
    transitivity (Student.completedLabs s1); assumption.
Qed.

Lemma completed_labs_only_grow_witness :
  let c := (Run.run (take 6 sample_run)
              (constructor "thread-1" "Classroom" 2)).1 in
  let os := [callAssignStudentToGroup "a" 2; callStartLab "L2" 2000 2001;
             callAddStudent (Student.mk "c" "C" None ∅)] in
  ∃ s', students (Run.run os c).1 !! "a" = Some s'
        ∧ Student.name s' = "A"
        ∧ "1000" ∈ Student.completedLabs s'.
Proof.
  intros c os.
  destruct (completed_labs_only_grow os c "a"
              (Student.mk "a" "A" (Some 1) {["1000"]}))
    as (s' & Hs' & _ & Hname & Hsub).
  - vm_compute. reflexivity.
  - vm_compute. reflexivity.
  - exists s'. split; [exact Hs' |]. split; [exact Hname |].
    apply Hsub. cbn. apply elem_of_singleton. reflexivity.
Defined.

Lemma completions_app (sid : string) (l1 l2 : list ClassroomEvent) :
  completions sid (l1 ++ l2) = (completions sid l1 + completions sid l2)%nat.
Proof.
  unfold completions. rewrite List.filter_app, length_app. reflexivity.
Qed.

Lemma completeLab_cases (k : string) (c : Classroom.t) :
  completeLab k c = mkStep false c []
  ∨ ∃ l st,
      activeLabSession c = Some l
      ∧ students c !! k = Some st
      ∧ completeLab k c
        = mkStep true
            (set_students
               (<[k := Student.add_completed (LabSession.id l) st]>
                  (students c)) c)
            (if bool_decide (LabSession.id l ∈ Student.completedLabs st)
             then []
             else [lab_completed
                     (Student.add_completed (LabSession.id l) st) l]).
Proof.
  unfold completeLab.
  destruct (activeLabSession c) as [l|] eqn:Hl; [| left; reflexivity].
  destruct (students c !! k) as [st|] eqn:Hst; [| left; reflexivity].
  right. exists l, st. repeat split.
  destruct (bool_decide _); reflexivity.
Qed.

Lemma perform_completion_bound (sid : string) (o : Call) (c : Classroom.t) :
  keys_ok c → adds sid o = false →
  (completions sid (perform o c).2 + completion_bound sid (perform o c).1
   ≤ completion_bound sid c)%nat.
Proof.
  intros Hkeys Ho. unfold completion_bound.
  destruct o as [student|studentId g|labName now start|studentId]; cbn in *.
  - apply bool_decide_eq_false_1 in Ho.
    unfold hasCompletedActiveLab; cbn.
    rewrite lookup_insert_ne by exact Ho. lia.
  - rewrite assignStudentToGroup_keeps_completion.
    unfold assignStudentToGroup.
    destruct (students c !! studentId); [| cbn; lia].
    destruct ((g <? 1) || (groups c <? g)); cbn; lia.
  - unfold startLab, hasCompletedActiveLab.
    destruct (activeLabSession c) as [l|] eqn:Hl; cbn; rewrite ?Hl.
    + lia.
    + destruct (students c !! sid); [| lia].
      destruct (bool_decide _); lia.
  - destruct (completeLab_cases studentId c)
      as [Hfail|(l & st & Hl & Hst & Hok)].
    + rewrite Hfail. cbn. lia.
    + rewrite Hok. pose proof (Hkeys _ _ Hst) as Hid.
      unfold hasCompletedActiveLab. cbn. rewrite Hl.
      rewrite lookup_insert.
      destruct (decide (studentId = sid)) as [->|Hk].
      * rewrite Hst. cbn.
        rewrite (bool_decide_eq_true_2
                   (LabSession.id l
                    ∈ {[LabSession.id l]} ∪ Student.completedLabs st))
          by (apply elem_of_union_l, elem_of_singleton; reflexivity).
        destruct (bool_decide (LabSession.id l ∈ Student.completedLabs st));
          cbn; [lia |].
        destruct (bool_decide (Student.id st = sid)); cbn; lia.
      * assert (Hnone :
          List.filter (is_completion sid)
            (if bool_decide (LabSession.id l ∈ Student.completedLabs st)
             then []
             else [lab_completed
                     (Student.add_completed (LabSession.id l) st) l])
          = []).
        { destruct (bool_decide _); [reflexivity |]. cbn.
          rewrite bool_decide_eq_false_2 by congruence. reflexivity. }
        rewrite Hnone. cbn. lia.
Qed.

Lemma run_completion_bound (sid : string) (os : list Call) :
  ∀ c : Classroom.t,
    keys_ok c →
    forallb (λ o, negb (adds sid o)) os = true →
    (completions sid (Run.run os c).2 ≤ completion_bound sid c)%nat.
Proof.
  induction os as [|o os IH]; intros c Hkeys Hos; cbn.
  - unfold completions. cbn. lia.
  - cbn in Hos. apply andb_true_iff in Hos as [Ho Hos].
    apply negb_true_iff in Ho.
    pose proof (perform_completion_bound sid o c Hkeys Ho) as Hstep.
    pose proof (perform_keys_ok o c Hkeys) as Hkeys1.
    destruct (perform o c) as [c1 e1]; cbn [fst snd] in *.
    specialize (IH c1 Hkeys1 Hos).
    destruct (Run.run os c1) as [c2 e2]; cbn [fst snd] in *.
    rewrite completions_app. lia.
Qed.

(** X6: whatever calls came before, as long as no record with the
    student's id is handed to [addStudent] again, the calls that follow
    emit [lab-completed] for that student at most once. *)
Theorem lab_completed_at_most_once
  (id name : string) (input : Z) (before os : list Call) (sid : string) :
  forallb (λ o, negb (adds sid o)) os = true →
  (completions sid
     (Run.run os (Run.run before (constructor id name input)).1).2 ≤ 1)%nat.
Proof.
  intros Hos.
  etransitivity.
  - apply run_completion_bound; [| exact Hos].
    apply run_keys_ok. intros k s. cbn. rewrite lookup_empty. discriminate.
  - unfold completion_bound. destruct (hasCompletedActiveLab _ _); lia.
Qed.

Lemma lab_completed_at_most_once_witness :
  let os := [callCompleteLab "a"; callAssignStudentToGroup "a" 2;
             callCompleteLab "a"; callCompleteLab "b"] in
  forallb (λ o, negb (adds "a" o)) os = true
  ∧ (completions "a"
       (Run.run os
          (Run.run (take 5 sample_run)
             (constructor "thread-1" "Classroom" 2)).1).2 ≤ 1)%nat.
Proof.
  intros os. split; [reflexivity |].
  apply (lab_completed_at_most_once "thread-1" "Classroom" 2
           (take 5 sample_run) os "a").
  reflexivity.
Defined.

(** * Properties of the interaction handlers *)

Import Handlers.

Section HandlerFacts.

Variable parseInt : string → option Z.

(** What the two handlers do to the classroom they find, as calls. *)
Lemma handleJoinGroup_found
  (params : list string) (groupStr threadId userId username : string)
  (groupNum : Z) (store : gmap string Classroom.t) (c : Classroom.t) :
  params !! 0%nat = Some groupStr →
  params !! 1%nat = Some threadId →
  parseInt groupStr = Some groupNum →
  store !! threadId = Some c →
  let os :=
    match students c !! userId with
    | Some _ => []
    | None => [callAddStudent (Student.mk userId username None ∅)]
    end
    ++ [callAssignStudentToGroup userId groupNum] in
  handleJoinGroup parseInt params userId username store
  = mkHandled (<[threadId := (Run.run os c).1]> store) (joined groupNum)
      (Run.run os c).2.
Proof.
  intros H0 H1 Hg Hc. unfold handleJoinGroup. rewrite H0, H1. cbn.
  rewrite Hg. cbn. rewrite Hc. unfold getStudent.
  destruct (students c !! userId) as [st|] eqn:Hst; cbn.
  - destruct (assignStudentToGroup userId groupNum c) as [v c' e].
    cbn. rewrite app_nil_r. reflexivity.
  - destruct (assignStudentToGroup userId groupNum _) as [v c' e].
    cbn. rewrite app_nil_r. reflexivity.
Qed.

Lemma handleCompleteLab_found
  (params : list string) (threadId userId : string)
  (store : gmap string Classroom.t) (c : Classroom.t) (l : LabSession.t)
  (st : Student.t) :
  params !! 0%nat = Some (LabSession.id l) →
  params !! 1%nat = Some threadId →
  store !! threadId = Some c →
  activeLabSession c = Some l →
  students c !! userId = Some st →
  handleCompleteLab params userId store
  = mkHandled (<[threadId := after (completeLab userId c)]> store)
      (if hasCompletedActiveLab userId c
       then alreadyCompleted (LabSession.name l)
       else completed (LabSession.name l))
      (emitted (completeLab userId c)).
Proof.
  intros H0 H1 Hc Hl Hst. unfold handleCompleteLab, getStudent.
  rewrite H0, H1, Hc, Hl, Hst.
  rewrite bool_decide_eq_true_2 by reflexivity. reflexivity.
Qed.

(** X9: joining a group with a number within [1..groups] puts the student
    into that group.  A student who is already registered keeps name and
    completed labs (the user name of the click is not used); an unknown
    user is registered first, under the Discord user id, with the user
    name and no completed lab. *)
Theorem handleJoinGroup_in_range
  (groupStr threadId userId username : string) (groupNum : Z)
  (store : gmap string Classroom.t) (c : Classroom.t) :
  parseInt groupStr = Some groupNum →
  store !! threadId = Some c →
  1 ≤ groupNum ≤ groups c →
  let r := handleJoinGroup parseInt [groupStr; threadId] userId username
             store in
  answer r = joined groupNum
  ∧ ∃ c' st',
      classrooms r = <[threadId := c']> store
      ∧ students c' !! userId = Some st'
      ∧ Student.group st' = Some groupNum
      ∧ match students c !! userId with
        | Some st =>
            Student.name st' = Student.name st
            ∧ Student.completedLabs st' = Student.completedLabs st
            ∧ notifications r = [student_group_changed st' groupNum]
        | None =>
            st' = Student.mk userId username (Some groupNum) ∅
            ∧ notifications r
              = [student_added (Student.mk userId username None ∅);
                 student_group_changed st' groupNum]
        end.
Proof.
  intros Hg Hc Hrange. cbv zeta.
  rewrite (handleJoinGroup_found [groupStr; threadId] _ _ _ _ _ _ _
             eq_refl eq_refl Hg Hc).
  cbn [answer].
  split; [reflexivity |].
  destruct (students c !! userId) as [st|] eqn:Hst; cbn.
  - unfold assignStudentToGroup. rewrite Hst.
    destruct (Z.ltb_spec groupNum 1); [lia |].
    destruct (Z.ltb_spec (groups c) groupNum); [lia |]. cbn.
    eexists _, _. split; [reflexivity |]. cbn.
    rewrite lookup_insert_eq. repeat split.
  - unfold assignStudentToGroup. cbn. rewrite lookup_insert_eq.
    destruct (Z.ltb_spec groupNum 1); [lia |].
    destruct (Z.ltb_spec (groups c) groupNum); [lia |]. cbn.
    eexists _, _. split; [reflexivity |]. cbn.
    rewrite lookup_insert_eq. repeat split.
Qed.

(** X10: with a group number outside [1..groups] the handler still answers
    "You have joined Group N": a registered student's classroom is left
    exactly as it was and nothing is emitted, an unknown user is registered
    without a group. *)
Theorem handleJoinGroup_out_of_range
  (groupStr threadId userId username : string) (groupNum : Z)
  (store : gmap string Classroom.t) (c : Classroom.t) :
  parseInt groupStr = Some groupNum →
  store !! threadId = Some c →
  groupNum < 1 ∨ groups c < groupNum →
  let r := handleJoinGroup parseInt [groupStr; threadId] userId username
             store in
  answer r = joined groupNum
  ∧ match students c !! userId with
    | Some _ => classrooms r = store ∧ notifications r = []
    | None =>
        classrooms r
        = <[threadId :=
              after (addStudent (Student.mk userId username None ∅) c)]>
            store
        ∧ notifications r
          = [student_added (Student.mk userId username None ∅)]
    end.
Proof.
  intros Hg Hc Hrange. cbv zeta.
  rewrite (handleJoinGroup_found [groupStr; threadId] _ _ _ _ _ _ _
             eq_refl eq_refl Hg Hc).
  cbn [answer].
  split; [reflexivity |].
  assert (Hguard : (groupNum <? 1) || (groups c <? groupNum) = true).
  { apply orb_true_iff. destruct Hrange; [left | right];
      apply Z.ltb_lt; assumption. }
  destruct (students c !! userId) as [st|] eqn:Hst; cbn.
  - unfold assignStudentToGroup. rewrite Hst, Hguard. cbn.
    split; [apply insert_id; exact Hc | reflexivity].
  - unfold assignStudentToGroup. cbn. rewrite lookup_insert_eq, Hguard.
    cbn. split; reflexivity.
Qed.

(** X11: [handleCompleteLab] changes the collection and emits something
    only on the path where the classroom exists, the lab id of the button
    is the id of the active session and the user is registered; a button
    whose lab id is not the active session's is answered "no longer
    active" and changes nothing. *)
Theorem handleCompleteLab_guards
  (params : list string) (userId : string)
  (store : gmap string Classroom.t) :
  let r := handleCompleteLab params userId store in
  ((classrooms r ≠ store ∨ notifications r ≠ []) →
     ∃ labId threadId c l st,
       params !! 0%nat = Some labId
       ∧ params !! 1%nat = Some threadId
       ∧ store !! threadId = Some c
       ∧ activeLabSession c = Some l
       ∧ LabSession.id l = labId
       ∧ students c !! userId = Some st)
  ∧ (∀ labId threadId c l,
       params !! 0%nat = Some labId →
       params !! 1%nat = Some threadId →
       store !! threadId = Some c →
       activeLabSession c = Some l →
       LabSession.id l ≠ labId →
       r = mkHandled store labInactive []).
Proof.
  cbv zeta. unfold handleCompleteLab. split.
  - destruct (params !! 1%nat) as [threadId|] eqn:Ht;
      [| cbn; intros [[]|[]]; reflexivity].
    destruct (store !! threadId) as [c|] eqn:Hc;
      [| cbn; intros [[]|[]]; reflexivity].
    destruct (activeLabSession c) as [l|] eqn:Hl;
      [| cbn; intros [[]|[]]; reflexivity].
    destruct (bool_decide (Some (LabSession.id l) = params !! 0%nat))
      eqn:Hid; cbn; [| intros [[]|[]]; reflexivity].
    apply bool_decide_eq_true_1 in Hid.
    unfold getStudent.
    destruct (students c !! userId) as [st|] eqn:Hst;
      [| cbn; intros [[]|[]]; reflexivity].
    intros _. exists (LabSession.id l), threadId, c, l, st.
    repeat split; auto.
  - intros labId threadId c l H0 H1 Hc Hl Hne.
    rewrite H1, Hc, Hl, H0.
    rewrite bool_decide_eq_false_2 by congruence. reflexivity.
Qed.

(** X12: the answer of [handleCompleteLab] agrees with what it emits: it
    says "You have completed" exactly when a [lab-completed] notification
    goes out, and whenever it says "completed" or "already completed" the
    student has completed the active lab of the stored classroom. *)
Theorem handleCompleteLab_answer_matches
  (params : list string) (userId : string)
  (store : gmap string Classroom.t) :
  let r := handleCompleteLab params userId store in
  ((∃ labName, answer r = completed labName) ↔ notifications r ≠ [])
  ∧ (∀ labName,
       answer r = completed labName ∨ answer r = alreadyCompleted labName →
       ∃ threadId c',
         params !! 1%nat = Some threadId
         ∧ classrooms r !! threadId = Some c'
         ∧ hasCompletedActiveLab userId c' = true
         ∧ (LabSession.name <$> activeLabSession c') = Some labName).
Proof.
  cbv zeta. unfold handleCompleteLab.
  destruct (params !! 1%nat) as [threadId|] eqn:Ht;
    [| cbn; split; [split; [intros [? [=]] | done] | intros ? [[=]|[=]]]].
  destruct (store !! threadId) as [c|] eqn:Hc;
    [| cbn; split; [split; [intros [? [=]] | done] | intros ? [[=]|[=]]]].
  destruct (activeLabSession c) as [l|] eqn:Hl;
    [| cbn; split; [split; [intros [? [=]] | done] | intros ? [[=]|[=]]]].
  destruct (bool_decide (Some (LabSession.id l) = params !! 0%nat));
    cbn; [| split; [split; [intros [? [=]] | done] | intros ? [[=]|[=]]]].
  unfold getStudent.
  destruct (students c !! userId) as [st|] eqn:Hst;
    [| cbn; split; [split; [intros [? [=]] | done] | intros ? [[=]|[=]]]].
  cbn [answer notifications classrooms].
  assert (Hhas : hasCompletedActiveLab userId c
                 = bool_decide (LabSession.id l ∈ Student.completedLabs st)).
  { unfold hasCompletedActiveLab. rewrite Hl, Hst. reflexivity. }
  assert (Hafter : hasCompletedActiveLab userId (after (completeLab userId c))
                   = true
                   ∧ activeLabSession (after (completeLab userId c))
                     = Some l).
  { unfold completeLab, hasCompletedActiveLab. rewrite Hl, Hst. cbn.
    rewrite Hl, lookup_insert_eq. split; [| reflexivity].
    apply bool_decide_eq_true_2, elem_of_union_l, elem_of_singleton.
    reflexivity. }
  split.
  - rewrite Hhas. unfold completeLab. rewrite Hl, Hst. cbn.
    destruct (bool_decide (LabSession.id l ∈ Student.completedLabs st));
      cbn; split; try done; [intros [? [=]] | eauto].
  - intros labName Hans. exists threadId, (after (completeLab userId c)).
    rewrite lookup_insert_eq. destruct Hafter as [H1 H2].
    repeat split; auto. rewrite H2. cbn. f_equal.
    destruct (hasCompletedActiveLab userId c), Hans as [[=]|[=]]; auto.
Qed.

End HandlerFacts.

Lemma handleJoinGroup_in_range_witness :
  let r := handleJoinGroup parse_digits ["2"; "thread-1"] "a" "Alice"
             sample_store in
  answer r = joined 2
  ∧ ∃ c' st', classrooms r = <["thread-1" := c']> sample_store
              ∧ students c' !! "a" = Some st'
              ∧ Student.group st' = Some 2
              ∧ Student.name st' = "A".
Proof.
  destruct (handleJoinGroup_in_range parse_digits "2" "thread-1" "a" "Alice"
              2 sample_store
              (Run.run (take 5 sample_run)
                 (constructor "thread-1" "Classroom" 2)).1)
    as (Hans & c' & st' & Hstore & Hst' & Hgroup & Hrest).
  - reflexivity.
  - apply lookup_singleton_eq.
  - vm_compute. split; discriminate.
  - split; [exact Hans |]. exists c', st'.
    repeat split; try assumption.
    change (students _ !! "a")
      with (Some (Student.mk "a" "A" (Some 1) ∅)) in Hrest.
    exact (proj1 Hrest).
Defined.

Lemma handleJoinGroup_out_of_range_witness :
  let r := handleJoinGroup parse_digits ["7"; "thread-1"] "a" "Alice"
             sample_store in
  answer r = joined 7 ∧ classrooms r = sample_store ∧ notifications r = [].
Proof.
  destruct (handleJoinGroup_out_of_range parse_digits "7" "thread-1" "a"
              "Alice" 7 sample_store
              (Run.run (take 5 sample_run)
                 (constructor "thread-1" "Classroom" 2)).1)
    as (Hans & Hrest).
  - reflexivity.
  - apply lookup_singleton_eq.
  - right. vm_compute. reflexivity.
  - split; [exact Hans |].
    change (students _ !! "a")
      with (Some (Student.mk "a" "A" (Some 1) ∅)) in Hrest.
    exact Hrest.
Defined.

Lemma handleCompleteLab_guards_witness :
  handleCompleteLab ["999"; "thread-1"] "a" sample_store
  = mkHandled sample_store labInactive []
  ∧ ∃ labId threadId c l st,
      ["1000"; "thread-1"] !! 0%nat = Some labId
      ∧ ["1000"; "thread-1"] !! 1%nat = Some threadId
      ∧ sample_store !! threadId = Some c
      ∧ activeLabSession c = Some l
      ∧ LabSession.id l = labId
      ∧ students c !! "a" = Some st.
Proof.
  split.
  - refine (proj2 (handleCompleteLab_guards ["999"; "thread-1"] "a"
                     sample_store)
              "999" "thread-1" _ (LabSession.mk "1000" "L1" 1001 "thread-1")
              eq_refl eq_refl _ _ _).
    + apply lookup_singleton_eq.
    + vm_compute. reflexivity.
    + discriminate.
  - apply (proj1 (handleCompleteLab_guards ["1000"; "thread-1"] "a"
                    sample_store)).
    right. vm_compute. discriminate.
Defined.

Lemma handleCompleteLab_answer_matches_witness :
  let r := handleCompleteLab ["1000"; "thread-1"] "a" sample_store in
  notifications r ≠ []
  ∧ ∃ threadId c',
      ["1000"; "thread-1"] !! 1%nat = Some threadId
      ∧ classrooms r !! threadId = Some c'
      ∧ hasCompletedActiveLab "a" c' = true
      ∧ (LabSession.name <$> activeLabSession c') = Some "L1".
Proof.
  pose proof (handleCompleteLab_answer_matches ["1000"; "thread-1"] "a"
                sample_store) as [Hiff Hdone].
  cbv zeta in *.
  assert (Hans : answer (handleCompleteLab ["1000"; "thread-1"] "a"
                           sample_store) = completed "L1")
    by (vm_compute; reflexivity).
  split.
  - apply Hiff. exists "L1". exact Hans.
  - apply Hdone. left. exact Hans.
Defined.

(** ** What the button handlers keep *)

Lemma button_calls_admissible (n : Z) (os : list Call) :
  forallb is_button_call os = true →
  forallb (group_in_range n) os = true
  ∧ forallb nothing_completed os = true.
Proof.
  induction os as [|o os IH]; cbn; [done |].
  intros [Ho Hos]%andb_true_iff. destruct (IH Hos) as [IH1 IH2].
  rewrite IH1, IH2, !andb_true_r.
  destruct o; cbn in *; try done.
  apply andb_true_iff in Ho as [Hg Hd].
  apply bool_decide_eq_true_1 in Hg. rewrite Hg. done.
Qed.

Lemma button_calls_keep_session (os : list Call) :
  ∀ c : Classroom.t,
    forallb is_button_call os = true →
    activeLabSession (Run.run os c).1 = activeLabSession c.
Proof.
  induction os as [|o os IH]; intros c Hos; cbn; [done |].
  cbn in Hos. apply andb_true_iff in Hos as [Ho Hos].
  assert (H1 : activeLabSession (perform o c).1 = activeLabSession c).
  { destruct o; cbn in *; try done.
    - unfold assignStudentToGroup.
      destruct (students c !! studentId); [| done].
      destruct ((group <? 1) || (groups c <? group)); done.
    - unfold completeLab. destruct (activeLabSession c) eqn:Hl; [| done].
      destruct (students c !! studentId); cbn; done. }
  destruct (perform o c) as [c1 e1]; cbn [fst] in *.
  specialize (IH c1 Hos).
  destruct (Run.run os c1) as [c2 e2]; cbn [fst] in *. congruence.
Qed.

Lemma button_effect (parseInt : string → option Z)
  (customId userId username : string) (store : gmap string Classroom.t) :
  let r := handleButtonInteraction parseInt customId userId username store in
  (classrooms r = store ∧ notifications r = [])
  ∨ ∃ threadId c os,
      store !! threadId = Some c
      ∧ forallb is_button_call os = true
      ∧ classrooms r = <[threadId := (Run.run os c).1]> store
      ∧ notifications r = (Run.run os c).2.
Proof.
  cbv zeta. unfold handleButtonInteraction.
  destruct (split_colon customId) as [|action params]; [left; done |].
  destruct (String.eqb action "join_group").
  - destruct (params !! 0%nat) as [groupStr|] eqn:H0;
      [| left; unfold handleJoinGroup; rewrite H0; done].
    destruct (parseInt groupStr) as [groupNum|] eqn:Hg;
      [| left; unfold handleJoinGroup; rewrite H0; cbn; rewrite Hg; done].
    destruct (params !! 1%nat) as [threadId|] eqn:H1;
      [| left; unfold handleJoinGroup; rewrite H0, H1; cbn; rewrite Hg;
         done].
    destruct (store !! threadId) as [c|] eqn:Hc;
      [| left; unfold handleJoinGroup; rewrite H0, H1; cbn; rewrite Hg;
         cbn; rewrite Hc; done].
    right. rewrite (handleJoinGroup_found parseInt params _ _ userId username
                      _ _ _ H0 H1 Hg Hc).
    eexists threadId, c, _. split; [exact Hc |].
    split; [| split; reflexivity].
    destruct (students c !! userId); cbn; [reflexivity |].
    rewrite !bool_decide_eq_true_2 by reflexivity. reflexivity.
  - destruct (String.eqb action "complete_lab"); [| left; done].
    unfold handleCompleteLab.
    destruct (params !! 1%nat) as [threadId|] eqn:H1; [| left; done].
    destruct (store !! threadId) as [c|] eqn:Hc; [| left; done].
    destruct (activeLabSession c) as [l|] eqn:Hl; [| left; done].
    destruct (bool_decide _); cbn; [| left; done].
    destruct (getStudent userId c); [| left; done].
    right. exists threadId, c, [callCompleteLab userId].
    split; [exact Hc |]. split; [reflexivity |]. cbn.
    destruct (completeLab userId c) as [v c' e]. cbn.
    rewrite app_nil_r. done.
Qed.

(** X13: whatever button is clicked, by whomever, the handlers add and
    remove no classroom and leave every classroom with its id, name, group
    count and active lab session and with all its students; every
    classroom that had all groups within [1..groups], all records under
    their own id, or no completed lab while no lab is active, still has
    that property. *)
Theorem buttons_keep_classrooms (parseInt : string → option Z)
  (customId userId username : string) (store : gmap string Classroom.t) :
  let r := handleButtonInteraction parseInt customId userId username store in
  dom (classrooms r) = dom store
  ∧ ∀ threadId c,
      store !! threadId = Some c →
      ∃ c', classrooms r !! threadId = Some c'
            ∧ Classroom.id c' = Classroom.id c
            ∧ Classroom.name c' = Classroom.name c
            ∧ groups c' = groups c
            ∧ activeLabSession c' = activeLabSession c
            ∧ dom (students c) ⊆ dom (students c')
            ∧ (student_groups_ok c → student_groups_ok c')
            ∧ (keys_ok c → keys_ok c')
            ∧ (nothing_completed_yet c → nothing_completed_yet c').
Proof.
  destruct (button_effect parseInt customId userId username store)
    as [[Hsame _]|(tid & c0 & os & Hc0 & Hos & Hstore & _)]; cbv zeta.
  - rewrite Hsame. split; [reflexivity |].
    intros threadId c Hc. exists c. repeat apply conj; auto.
  - rewrite Hstore. split.
    { rewrite dom_insert_L.
      apply subseteq_union_1_L, singleton_subseteq_l, elem_of_dom. eauto. }
    intros threadId c Hc. rewrite lookup_insert.
    destruct (decide (tid = threadId)) as [->|Hne];
      [| exists c; repeat apply conj; auto].
    rewrite Hc0 in Hc. injection Hc as ->.
    exists (Run.run os c).1.
    destruct (run_identity os c) as (Hid & Hname & Hg & Hdom).
    destruct (button_calls_admissible (groups c) os Hos) as [Hrange Hfresh].
    repeat apply conj; auto.
    + apply button_calls_keep_session. exact Hos.
    + intros Hok.
      exact (proj1 (proj2 (run_invariant (groups c) os c eq_refl Hrange Hok))).
    + apply run_keys_ok.
    + apply run_nothing_completed_yet. exact Hfresh.
Qed.

Lemma buttons_keep_classrooms_witness :
  let r := handleButtonInteraction parse_digits "join_group:2:thread-1"
             "zoe" "Zoe" sample_store in
  ∃ c', classrooms r !! "thread-1" = Some c'
        ∧ groups c' = 2
        ∧ (LabSession.id <$> activeLabSession c') = Some "1000"
        ∧ student_groups_ok c'.
Proof.
  pose proof (buttons_keep_classrooms parse_digits "join_group:2:thread-1"
                "zoe" "Zoe" sample_store) as [_ H].
  cbv zeta in H.
  destruct (H "thread-1"
              (Run.run (take 5 sample_run)
                 (constructor "thread-1" "Classroom" 2)).1)
    as (c' & Hc' & _ & _ & Hg & Hl & _ & Hok & _).
  - apply lookup_singleton_eq.
  - exists c'. split; [exact Hc' |]. split; [rewrite Hg; reflexivity |].
    split; [rewrite Hl; vm_compute; reflexivity |].
    apply Hok.
    refine (proj1 (proj2 (run_invariant 2 (take 5 sample_run)
                            (constructor "thread-1" "Classroom" 2)
                            eq_refl eq_refl _))).
    intros sid s g. cbn. rewrite lookup_empty. discriminate.
Defined.

(** ** Custom ids and routing *)

Lemma split_colon_whole (s : string) :
  no_colon s = true → split_colon s = [s].
Proof.
  induction s as [|a s IH]; cbn [String.append split_colon no_colon];
    [reflexivity |].
  intros [Ha Hs]%andb_true_iff. apply negb_true_iff in Ha.
  rewrite Ha, (IH Hs). reflexivity.
Qed.

Lemma split_colon_first (s rest : string) :
  no_colon s = true →
  split_colon (s +:+ ":" +:+ rest) = s :: split_colon rest.
Proof.
  induction s as [|a s IH]; [reflexivity |].
  change (String a s +:+ ":" +:+ rest)
    with (String a (s +:+ ":" +:+ rest)).
  cbn [split_colon no_colon].
  intros [Ha Hs]%andb_true_iff. apply negb_true_iff in Ha.
  rewrite Ha, (IH Hs). reflexivity.
Qed.

Lemma no_colon_digits (x : N) :
  ∀ s, no_colon s = true → no_colon (pretty_N_go x s) = true.
Proof.
  induction (N.lt_wf_0 x) as [x _ IH]; intros s Hs.
  assert (x = 0 ∨ 0 < x)%N as [->|Hpos] by lia.
  - rewrite pretty_N_go_0. exact Hs.
  - rewrite pretty_N_go_step by exact Hpos. apply IH.
    + apply N.div_lt; [exact Hpos | reflexivity].
    + cbn. rewrite Hs. unfold pretty_N_char.
      repeat case_match; reflexivity.
Qed.

Lemma no_colon_pretty (z : Z) : no_colon (pretty z) = true.
Proof.
  assert (HN : ∀ n : N, no_colon (pretty n) = true).
  { intros n. unfold pretty, pretty_N. case_decide; [reflexivity |].
    apply no_colon_digits. reflexivity. }
  destruct z as [|p|p]; unfold pretty, pretty_Z.
  - reflexivity.
  - apply (HN (N.pos p)).
  - cbn. apply (HN (N.pos p)).
Qed.

Lemma route_join (parseInt : string → option Z) (groupNum : Z)
  (threadId userId username : string) (store : gmap string Classroom.t) :
  no_colon threadId = true →
  handleButtonInteraction parseInt (joinGroupCustomId groupNum threadId)
    userId username store
  = handleJoinGroup parseInt [pretty groupNum; threadId] userId username
      store.
Proof.
  intros Ht. unfold handleButtonInteraction, joinGroupCustomId.
  change ("join_group:" +:+ pretty groupNum +:+ ":" +:+ threadId)
    with ("join_group" +:+ ":" +:+ pretty groupNum +:+ ":" +:+ threadId).
  rewrite split_colon_first by reflexivity.
  rewrite split_colon_first by apply no_colon_pretty.
  rewrite split_colon_whole by exact Ht. reflexivity.
Qed.

Lemma route_complete (parseInt : string → option Z)
  (labId threadId userId username : string)
  (store : gmap string Classroom.t) :
  no_colon labId = true → no_colon threadId = true →
  handleButtonInteraction parseInt (completeLabCustomId labId threadId)
    userId username store
  = handleCompleteLab [labId; threadId] userId store.
Proof.
  intros Hl Ht. unfold handleButtonInteraction, completeLabCustomId.
  change ("complete_lab:" +:+ labId +:+ ":" +:+ threadId)
    with ("complete_lab" +:+ ":" +:+ labId +:+ ":" +:+ threadId).
  rewrite split_colon_first by reflexivity.
  rewrite split_colon_first by exact Hl.
  rewrite split_colon_whole by exact Ht. reflexivity.
Qed.

(** X14: the custom ids the commands give their buttons come back to the
    right handler with the right parameters, provided the thread id holds
    no colon: a [join_group] id reaches [handleJoinGroup] with the decimal
    group number and the thread id, a [complete_lab] id whose lab id holds
    no colon reaches [handleCompleteLab] with the lab id and the thread id,
    and the ids [startLab] makes hold no colon. *)
Theorem custom_ids_route_back (parseInt : string → option Z)
  (threadId userId username : string) (store : gmap string Classroom.t) :
  no_colon threadId = true →
  (∀ groupNum,
     handleButtonInteraction parseInt (joinGroupCustomId groupNum threadId)
       userId username store
     = handleJoinGroup parseInt [pretty groupNum; threadId] userId username
         store)
  ∧ (∀ labId,
       no_colon labId = true →
       handleButtonInteraction parseInt (completeLabCustomId labId threadId)
         userId username store
       = handleCompleteLab [labId; threadId] userId store)
  ∧ (∀ labName now start c l,
       value (startLab labName now start c) = Returned l →
       no_colon (LabSession.id l) = true).
Proof.
  intros Ht. split; [| split].
  - intros groupNum. apply route_join. exact Ht.
  - intros labId Hl. apply route_complete; assumption.
  - intros labName now start c l. unfold startLab.
    destruct (activeLabSession c); cbn; [discriminate |].
    intros [= <-]. cbn. apply no_colon_pretty.
Qed.

Lemma custom_ids_route_back_witness :
  handleButtonInteraction parse_digits (joinGroupCustomId 2 "thread-1")
    "zoe" "Zoe" sample_store
  = handleJoinGroup parse_digits ["2"; "thread-1"] "zoe" "Zoe" sample_store
  ∧ handleButtonInteraction parse_digits
      (completeLabCustomId "1000" "thread-1") "a" "A" sample_store
    = handleCompleteLab ["1000"; "thread-1"] "a" sample_store.
Proof.
  pose proof (custom_ids_route_back parse_digits "thread-1" "zoe" "Zoe"
                sample_store eq_refl) as (Hjoin & _ & _).
  pose proof (custom_ids_route_back parse_digits "thread-1" "a" "A"
                sample_store eq_refl) as (_ & Hdone & _).
  split; [exact (Hjoin 2) | exact (Hdone "1000" eq_refl)].
Defined.

(** X15: the button that [start-lab] posts works for a registered student.
    After [startLab] has returned session [l] in the classroom stored
    under a colon-free thread id, a click on the button with custom id
    [complete_lab:<l.id>:<threadId>] by a student who has not completed
    that lab is answered "You have completed", emits one [lab-completed]
    notification and leaves the student with the lab completed. *)
Theorem started_lab_button_completes (parseInt : string → option Z)
  (store : gmap string Classroom.t) (threadId userId username : string)
  (labName : string) (now start : Z) (c : Classroom.t) (l : LabSession.t)
  (st : Student.t) :
  no_colon threadId = true →
  value (startLab labName now start c) = Returned l →
  students c !! userId = Some st →
  LabSession.id l ∉ Student.completedLabs st →
  let c1 := after (startLab labName now start c) in
  let r := handleButtonInteraction parseInt
             (completeLabCustomId (LabSession.id l) threadId)
             userId username (<[threadId := c1]> store) in
  answer r = completed labName
  ∧ notifications r
    = [lab_completed (Student.add_completed (LabSession.id l) st) l]
  ∧ ∃ c', classrooms r !! threadId = Some c'
          ∧ hasCompletedActiveLab userId c' = true.
Proof.
  intros Ht Hstart Hst Hnew. cbv zeta.
  assert (Hc1 : activeLabSession (after (startLab labName now start c))
                = Some l
                ∧ students (after (startLab labName now start c))
                  = students c
                ∧ LabSession.name l = labName
                ∧ no_colon (LabSession.id l) = true).
  { unfold startLab in *. destruct (activeLabSession c); cbn in *;
      [discriminate |].
    injection Hstart as <-. cbn. repeat split. apply no_colon_pretty. }
  destruct Hc1 as (Hl & Hsame & Hname & Hid).
  rewrite route_complete by assumption.
  rewrite (handleCompleteLab_found [LabSession.id l; threadId] threadId
             userId _ _ l st eq_refl eq_refl (lookup_insert_eq _ _ _) Hl)
    by (rewrite Hsame; exact Hst).
  cbn [answer notifications classrooms].
  assert (Hhas : hasCompletedActiveLab userId
                   (after (startLab labName now start c)) = false).
  { unfold hasCompletedActiveLab. rewrite Hl, Hsame, Hst.
    apply bool_decide_eq_false_2. exact Hnew. }
  rewrite Hhas, Hname. split; [reflexivity |].
  unfold completeLab at 1. rewrite Hl, Hsame, Hst.
  rewrite (bool_decide_eq_false_2 _ Hnew). cbn. split; [reflexivity |].
  eexists. rewrite lookup_insert_eq. split; [reflexivity |].
  unfold completeLab, hasCompletedActiveLab. rewrite Hl, Hsame, Hst. cbn.
  rewrite Hl, lookup_insert_eq.
  apply bool_decide_eq_true_2, elem_of_union_l, elem_of_singleton.
  reflexivity.
Qed.

Lemma started_lab_button_completes_witness :
  let c := (Run.run (take 4 sample_run)
              (constructor "thread-1" "Classroom" 2)).1 in
  let c1 := after (startLab "L1" 1000 1001 c) in
  let r := handleButtonInteraction parse_digits
             (completeLabCustomId "1000" "thread-1") "a" "A"
             (<["thread-1" := c1]> ∅) in
  answer r = completed "L1"
  ∧ ∃ c', classrooms r !! "thread-1" = Some c'
          ∧ hasCompletedActiveLab "a" c' = true.
Proof.
  intros c c1 r.
  destruct (started_lab_button_completes parse_digits ∅ "thread-1" "a" "A"
              "L1" 1000 1001 c (LabSession.mk "1000" "L1" 1001 "thread-1")
              (Student.mk "a" "A" (Some 1) ∅))
    as (Hans & _ & Hdone).
  - reflexivity.
  - vm_compute. reflexivity.
  - vm_compute. reflexivity.
  - cbn. apply not_elem_of_empty.
  - split; [exact Hans | exact Hdone].
Defined.

(** * Further properties of the auto-updating reply *)

Lemma release_when_torn_down (s : AutoUpdate.t) :
  torn_down s → release s = s.
Proof.
  unfold torn_down, release, removeEventListeners, subscriptions.
  destruct s as [[table|] ? ? ? ? ? ? ? iid ? ?]; cbn;
    intros [-> Hsub]; [subst table |]; reflexivity.
Qed.

(** X16: tearing a session down twice is the same as once, and a session
    that is torn down ignores every classroom notification and every tick
    of the interval timer. *)
Theorem torn_down_is_final (s : AutoUpdate.t) :
  release (release s) = release s
  ∧ (torn_down s →
     release s = s
     ∧ (∀ h now now' io, handle (notified h now now' io) s = s)
     ∧ (∀ now io, handle (intervalFires now io) s = s)).
Proof.
  split.
  - apply release_when_torn_down, release_torn_down.
  - intros Htd. split; [apply release_when_torn_down; exact Htd |].
    destruct Htd as [Hid Hsub]. split.
    + intros h now now' io. cbn. rewrite Hsub.
      rewrite bool_decide_eq_false_2 by apply not_elem_of_nil. reflexivity.
    + intros now io. cbn. rewrite Hid. reflexivity.
Qed.

Lemma torn_down_is_final_witness :
  let s := performUpdate "scheduled" 30000 editReplyThrows fresh_session in
  handle (notified onLabCompleted 31000 31000 ioOk) s = s
  ∧ handle (intervalFires 60000 ioOk) s = s.
Proof.
  intros s.
  destruct (torn_down_is_final s) as [_ H].
  destruct H as (_ & Hn & Hi).
  - split; vm_compute; reflexivity.
  - split; [apply Hn | apply Hi].
Defined.

Section SessionInvariant.

Variables (deadline : Z) (subs : list Listener).

Lemma release_session_ok (s : AutoUpdate.t) :
  session_ok deadline subs s → session_ok deadline subs (release s).
Proof.
  intros (Hend & Hhead & Hlen & _).
  pose proof (release_torn_down s) as Htd.
  unfold release, removeEventListeners in *.
  destruct s as [[table|] ? ? ? ? ? ? ? ? ? ?];
    unfold session_ok, torn_down, subscriptions in *; cbn in *;
    (split; [exact Hend | split; [exact Hhead | split; [exact Hlen |]]]);
    right; exact Htd.
Qed.

Lemma performUpdate_session_ok reason now io (s : AutoUpdate.t) :
  session_ok deadline subs s →
  session_ok deadline subs (performUpdate reason now io s).
Proof.
  intros Hok. unfold performUpdate.
  assert (Hcount : session_ok deadline subs
                     (set_updateCount (updateCount s + 1) s)).
  { destruct Hok as (Hend & Hhead & Hlen & Hlive).
    destruct s; unfold session_ok, torn_down, subscriptions in *; cbn in *.
    split; [exact Hend | split; [exact Hhead | split; [lia | exact Hlive]]]. }
  assert (Hreply : ∀ r, session_ok deadline subs
                          (editReply r (set_updateCount (updateCount s + 1) s))).
  { intros r. destruct Hok as (Hend & Hhead & Hlen & Hlive).
    destruct s as [? ? ? ? ? ? ? ? ? ? reps];
      unfold session_ok, torn_down, subscriptions in *; cbn in *.
    split; [exact Hend |]. split; [| split; [| exact Hlive]].
    - destruct reps; [discriminate | exact Hhead].
    - rewrite length_app. cbn. lia. }
  cbn [endTime set_updateCount].
  destruct (_ <=? now); destruct io;
    try (apply release_session_ok; auto).
  specialize (Hreply (updateReply (ceil_minutes (endTime s - now))
                        (updateCount s + 1 + 1) reason)).
  destruct Hreply as (Hend & Hhead & Hlen & Hlive).
  destruct s; unfold session_ok, torn_down, subscriptions in *; cbn in *.
  split; [exact Hend | split; [exact Hhead | split; [exact Hlen |]]].
  exact Hlive.
Qed.

Lemma handle_session_ok (e : Occurrence) (s : AutoUpdate.t) :
  session_ok deadline subs s → session_ok deadline subs (handle e s).
Proof.
  intros Hok. destruct e as [now io|n now io|h now now' io]; cbn.
  - destruct (intervalId s); [| exact Hok].
    apply performUpdate_session_ok, Hok.
  - destruct (timeouts s !! n) as [timer|]; [| exact Hok].
    destruct (_ <=? now); [| exact Hok].
    assert (Hdel : session_ok deadline subs
                     (set_timeouts (delete n (timeouts s)) s)).
    { destruct Hok as (Hend & Hhead & Hlen & Hlive).
      destruct s; unfold session_ok, torn_down, subscriptions in *; cbn in *.
      split; [exact Hend | split; [exact Hhead | split; [exact Hlen |]]].
      exact Hlive. }
    destruct (callback timer).
    + apply performUpdate_session_ok, Hdel.
    + apply release_session_ok, Hdel.
  - destruct (bool_decide _); [| exact Hok].
    unfold queueUpdate.
    destruct (_ <? MIN_UPDATE_INTERVAL).
    + destruct (pendingUpdate s); cbn; [exact Hok |].
      destruct Hok as (Hend & Hhead & Hlen & Hlive).
      destruct s; unfold session_ok, torn_down, subscriptions in *; cbn in *.
      split; [exact Hend | split; [exact Hhead | split; [exact Hlen |]]].
      exact Hlive.
    + apply performUpdate_session_ok, Hok.
Qed.

Lemma run_session_ok (es : list Occurrence) :
  ∀ s, session_ok deadline subs s → session_ok deadline subs (run es s).
Proof.
  induction es as [|e es IH]; intros s Hok; [exact Hok |].
  apply IH, handle_session_ok, Hok.
Qed.

End SessionInvariant.

(** X17: throughout the life of a session, whatever timers fire and
    notifications arrive and whatever fails: the deadline stays at
    [start + timeLimit], the first reply is the initial response, there is
    at most one further reply per [performUpdate], and the interval timer
    and the listeners are released together: either the timer runs and
    exactly the listeners registered at the start are subscribed, or the
    timer is cancelled and no listener is left. *)
Theorem session_stays_ok
  (classroom : bool) (interval timeLimit start now : Z)
  (es : list Occurrence) :
  let s0 := createAutoUpdateMessage classroom interval timeLimit start now in
  session_ok (start + timeLimit) (subscriptions s0) (run es s0).
Proof.
  cbv zeta. apply run_session_ok.
  unfold session_ok. cbn.
  split; [reflexivity | split; [reflexivity | split; [lia |]]].
  left. split; reflexivity.
Qed.

Lemma handle_keeps_timeouts (e : Occurrence) (s : AutoUpdate.t) :
  is_timeoutFires e = false →
  timeouts s `prefix_of` timeouts (handle e s).
Proof.
  intros He. destruct e as [now io|n now io|h now now' io]; cbn in *.
  - destruct (intervalId s); [| reflexivity].
    rewrite performUpdate_timeouts. reflexivity.
  - discriminate.
  - destruct (bool_decide _); [| reflexivity].
    unfold queueUpdate. destruct (_ <? MIN_UPDATE_INTERVAL).
    + destruct (pendingUpdate s); cbn; [reflexivity |].
      destruct s; cbn. apply prefix_app_r. reflexivity.
    + rewrite performUpdate_timeouts. reflexivity.
Qed.

(** X18: a timeout of the session leaves the list of pending timeouts only
    by firing.  No refresh, whatever its outcome, and no teardown cancels
    one; as long as no timeout fires, the pending ones stay, in order, and
    new ones are added behind them; and a timeout that fires removes
    itself only. *)
Theorem timeouts_only_leave_by_firing (s : AutoUpdate.t) :
  (∀ reason now io, timeouts (performUpdate reason now io s) = timeouts s)
  ∧ timeouts (release s) = timeouts s
  ∧ (∀ es, forallb (λ e, negb (is_timeoutFires e)) es = true →
           timeouts s `prefix_of` timeouts (run es s))
  ∧ (∀ n now io timer,
       timeouts s !! n = Some timer → due timer ≤ now →
       timeouts (handle (timeoutFires n now io) s) = delete n (timeouts s)).
Proof.
  split; [intros; apply performUpdate_timeouts |].
  split; [apply release_timeouts |]. split.
  - intros es. revert s. induction es as [|e es IH]; intros s Hes.
    + reflexivity.
    + cbn in Hes. apply andb_true_iff in Hes as [He Hes].
      apply negb_true_iff in He.
      transitivity (timeouts (handle e s)).
      * apply handle_keeps_timeouts, He.
      * apply (IH (handle e s) Hes).
  - intros n now io timer Hn Hdue. cbn. rewrite Hn.
    destruct (Z.leb_spec (due timer) now); [| lia].
    destruct (callback timer).
    + rewrite performUpdate_timeouts. destruct s; reflexivity.
    + rewrite release_timeouts. destruct s; reflexivity.
Qed.

Lemma timeouts_only_leave_by_firing_witness :
  let s := handle (notified onLabCompleted 1000 1000 ioOk) fresh_session in
  timeouts s
    `prefix_of` timeouts
                  (run [intervalFires 30000 editReplyThrows;
                        notified onStudentAdded 31000 31000 ioOk] s)
  ∧ timeouts (handle (timeoutFires 0 900000 ioOk) s)
    = delete 0%nat (timeouts s).
Proof.
  intros s.
  pose proof (timeouts_only_leave_by_firing s) as (_ & _ & Hrun & Hfire).
  split.
  - apply Hrun. reflexivity.
  - apply (Hfire 0%nat 900000 ioOk
             (mkTimeout 0 DEFAULT_UPDATE_LIMIT cleanupAtLimit)).
    + reflexivity.
    + vm_compute. discriminate.
Defined.

(** X19: a refresh by the interval timer opens the gate again.  After a
    tick at [tick] that goes through, a notification less than 10 s later
    sets a new timeout, due at [tick + 10 s], whether or not an earlier
    deferred refresh is still waiting: the timeouts that were pending are
    all still there, so two deferred refreshes can be registered at once. *)
Theorem interval_refresh_reopens_gate
  (s : AutoUpdate.t) (reason : string) (tick now now' : Z) (io : Io) :
  intervalId s = true →
  tick < endTime s →
  now - tick < MIN_UPDATE_INTERVAL →
  let s1 := handle (intervalFires tick ioOk) s in
  timeouts (queueUpdate reason now now' io s1)
  = timeouts s ++ [deferred reason now tick]
  ∧ due (deferred reason now tick) = tick + MIN_UPDATE_INTERVAL.
Proof.
  intros Hid Hend Hwin. cbv zeta. cbn [handle]. rewrite Hid.
  rewrite (performUpdate_refreshes _ _ _ Hend).
  split; [| unfold due, deferred; cbn; lia].
  rewrite queueUpdate_defers.
  - destruct s; reflexivity.
  - destruct s; cbn in *. exact Hwin.
  - destruct s; reflexivity.
Qed.

Lemma interval_refresh_reopens_gate_witness :
  let s := handle (notified onLabCompleted 25000 25000 ioOk)
             (handle (intervalFires 20000 ioOk) fresh_session) in
  timeouts (queueUpdate "lab-completed" 33000 33000 ioOk
              (handle (intervalFires 30000 ioOk) s))
  = [mkTimeout 0 DEFAULT_UPDATE_LIMIT cleanupAtLimit;
     deferred "lab-completed" 25000 20000;
     deferred "lab-completed" 33000 30000].
Proof.
  intros s.
  destruct (interval_refresh_reopens_gate s "lab-completed" 30000 33000 33000
              ioOk) as [H _].
  - reflexivity.
  - vm_compute. reflexivity.
  - vm_compute. reflexivity.
  - rewrite H. reflexivity.
Defined.

Section Refreshes.

Import Async.

Lemma release_fields (s : AutoUpdate.t) :
  endTime (release s) = endTime s
  ∧ updateCount (release s) = updateCount s
  ∧ replies (release s) = replies s
  ∧ lastUpdateTime (release s) = lastUpdateTime s
  ∧ pendingUpdate (release s) = pendingUpdate s.
Proof.
  unfold release, removeEventListeners.
  destruct s as [[table|] ? ? ? ? ? ? ? ? ? ?]; cbn; auto.
Qed.

Lemma release_replies (s : AutoUpdate.t) :
  replies (release s) = replies s.
Proof. apply release_fields. Qed.

Lemma handle_fields (e : Occurrence) (a : Async.t) :
  endTime (session (handle e a)) = endTime (session a)
  ∧ updateCount (session a) ≤ updateCount (session (handle e a)).
Proof.
  pose proof (release_fields (session a)) as (Re & Ru & _).
  destruct e as [now|n now|h now now'|i ok|i ok]; cbn [handle].
  - destruct (intervalId (session a)); cbn; lia.
  - destruct (timeouts (session a) !! n) as [timer|]; [| lia].
    destruct (due timer <=? now); [| lia].
    destruct (callback timer); cbn [session set_session performUpdate].
    + cbn. lia.
    + pose proof (release_fields
        (set_timeouts (delete n (timeouts (session a))) (session a)))
        as (Re' & Ru' & _).
      rewrite Re', Ru'. cbn. lia.
  - destruct (bool_decide _); [| lia]. unfold queueUpdate.
    destruct (_ <? _); [destruct (negb _) |]; cbn; lia.
  - unfold afterGenerateEmbed.
    destruct (flights a !! i) as [f|]; [| lia].
    destruct (Flight.stage f); try lia.
    destruct ok; cbn [session set_stage set_session]; lia.
  - unfold afterEditReply.
    destruct (flights a !! i) as [f|]; [| lia].
    destruct (Flight.stage f); try lia.
    cbn [session set_stage set_session].
    pose proof (release_fields (editReply r (session a)))
      as (Re' & Ru' & _).
    destruct ok; [destruct (Flight.final f) |];
      rewrite ?Re', ?Ru', ?Re, ?Ru; cbn; lia.
Qed.

Lemma run_fields (es : list Occurrence) :
  ∀ a : Async.t,
    endTime (session (run es a)) = endTime (session a)
    ∧ updateCount (session a) ≤ updateCount (session (run es a)).
Proof.
  induction es as [|e es IH]; intros a; [cbn; lia |].
  change (run (e :: es) a) with (run es (handle e a)).
  destruct (IH (handle e a)) as [IH1 IH2].
  destruct (handle_fields e a) as [H1 H2]. lia.
Qed.

Lemma ceil_minutes_bounds (ms : Z) :
  0 < ms →
  1 ≤ ceil_minutes ms
  ∧ 60000 * (ceil_minutes ms - 1) < ms ≤ 60000 * ceil_minutes ms.
Proof.
  intros Hms. unfold ceil_minutes.
  pose proof (Z.div_mod (- ms) 60000 ltac:(lia)) as Hdm.
  pose proof (Z.mod_pos_bound (- ms) 60000 ltac:(lia)) as Hm.
  lia.
Qed.

Lemma afterGenerateEmbed_rendering (i : nat) (f : Flight.t) (a : Async.t) :
  flights a !! i = Some f → Flight.stage f = rendering →
  let r :=
    if Flight.final f then finalReply (updateCount (session a) + 1)
    else updateReply (ceil_minutes (endTime (session a) - Flight.now f))
           (updateCount (session a) + 1) (Flight.reason f) in
  afterGenerateEmbed i true a = set_stage i (posting r) a
  ∧ session (afterGenerateEmbed i true a) = session a
  ∧ flights (afterGenerateEmbed i true a) !! i
    = Some (Flight.set_stage (posting r) f).
Proof.
  intros Hi Hst. cbv zeta. unfold afterGenerateEmbed. rewrite Hi, Hst.
  split; [reflexivity |]. split; [reflexivity |].
  cbn [set_stage flights]. rewrite list_lookup_alter_eq, Hi. reflexivity.
Qed.

Lemma afterEditReply_posting (i : nat) (f : Flight.t) (r : Reply)
    (a : Async.t) :
  flights a !! i = Some f → Flight.stage f = posting r →
  session (afterEditReply i true a)
  = (if Flight.final f then release (editReply r (session a))
     else set_pendingUpdate false
            (set_lastUpdateTime (Flight.now f) (editReply r (session a))))
  ∧ flights (afterEditReply i true a) !! i
    = Some (Flight.set_stage settled f).
Proof.
  intros Hi Hst. unfold afterEditReply. rewrite Hi, Hst.
  split; [reflexivity |].
  cbn [set_stage flights set_session].
  rewrite list_lookup_alter_eq, Hi. reflexivity.
Qed.

(** X20: a refresh that starts before the deadline raises [updateCount] by
    one at once.  When [generateEmbed] has returned, whatever ran in
    between, the footer is built from the minutes between the refresh's
    own clock reading and the deadline, rounded up (at least 1), its
    reason, and the number [updateCount + 1] as it is at that moment:
    at least the count before the call plus two, and exactly that when
    nothing ran in between.  When [editReply] has gone through right
    after, that reply is appended, [lastUpdateTime] is the refresh's clock
    reading and the pending flag is cleared. *)
Theorem refresh_footer
  (a : Async.t) (reason : string) (now : Z) (es : list Occurrence) :
  now < endTime (session a) →
  let i := length (flights a) in
  let a1 := run es (performUpdate reason now a) in
  flights a1 !! i = Some (Flight.mk reason now false rendering) →
  let remaining := ceil_minutes (endTime (session a) - now) in
  let number := updateCount (session a1) + 1 in
  let r := updateReply remaining number reason in
  let a2 := handle (generateEmbedSettles i true) a1 in
  updateCount (session (performUpdate reason now a))
  = updateCount (session a) + 1
  ∧ flights a2 !! i = Some (Flight.mk reason now false (posting r))
  ∧ session a2 = session a1
  ∧ 1 ≤ remaining
  ∧ 60000 * (remaining - 1) < endTime (session a) - now ≤ 60000 * remaining
  ∧ updateCount (session a) + 2 ≤ number
  ∧ (es = [] → number = updateCount (session a) + 2)
  ∧ session (handle (editReplySettles i true) a2)
    = set_pendingUpdate false
        (set_lastUpdateTime now (editReply r (session a1))).
Proof.
  intros Hend. cbv zeta. intros Hi.
  destruct (run_fields es (performUpdate reason now a)) as [He Hu].
  change (endTime (session (performUpdate reason now a)))
    with (endTime (session a)) in He.
  change (updateCount (session (performUpdate reason now a)))
    with (updateCount (session a) + 1) in Hu.
  destruct (afterGenerateEmbed_rendering _ _ _ Hi eq_refl)
    as (_ & Hs2 & Hf2).
  cbv zeta in Hf2. cbn [Flight.final Flight.now Flight.reason] in Hf2.
  rewrite He in Hf2.
  destruct (ceil_minutes_bounds (endTime (session a) - now) ltac:(lia))
    as [Hpos Hceil].
  split; [reflexivity |]. split; [exact Hf2 |]. split; [exact Hs2 |].
  split; [exact Hpos |]. split; [exact Hceil |]. split; [lia |].
  split; [intros ->; cbn; lia |].
  cbn [handle].
  destruct (afterEditReply_posting _ _ _ _ Hf2 eq_refl) as [Hs3 _].
  rewrite Hs3. cbn [Flight.set_stage Flight.final Flight.now].
  rewrite Hs2. reflexivity.
Qed.

Lemma refresh_footer_witness :
  let a1 := run [intervalFires 30000] fresh in
  let a2 := handle (generateEmbedSettles 0 true) a1 in
  flights a1 !! 0%nat = Some (Flight.mk "scheduled" 30000 false rendering)
  ∧ flights a2 !! 0%nat
    = Some (Flight.mk "scheduled" 30000 false
              (posting (updateReply 15 2 "scheduled")))
  ∧ replies (session (handle (editReplySettles 0 true) a2))
    = [initialReply; updateReply 15 2 "scheduled"].
Proof.
  intros a1 a2.
  assert (Hi : flights a1 !! 0%nat
               = Some (Flight.mk "scheduled" 30000 false rendering))
    by (vm_compute; reflexivity).
  destruct (refresh_footer fresh "scheduled" 30000 [])
    as (_ & Hf & _ & _ & _ & _ & Hn & Hs).
  - vm_compute. reflexivity.
  - exact Hi.
  - split; [exact Hi |]. split.
    + exact Hf.
    + apply (f_equal replies) in Hs.
      etransitivity; [exact Hs |]. vm_compute. reflexivity.
Defined.

(** X21: a deferred refresh starts when its timer fires, whatever has
    happened to the session in between, a teardown included: no check is
    made that the session is still running.  When [generateEmbed] has
    returned it builds its reply (from the deadline on the final one), and
    when [editReply] has gone through that reply is appended, whatever ran
    in between; before the deadline the refresh then takes its own clock
    reading as the time of the last refresh and clears the pending flag,
    from the deadline on it tears the session down. *)
Theorem deferred_refresh_always_posts
  (a : Async.t) (n : nat) (timer : Timeout) (reason : string) (now : Z) :
  timeouts (session a) !! n = Some timer →
  callback timer = deferredUpdate reason →
  due timer ≤ now →
  let i := length (flights a) in
  let final := endTime (session a) <=? now in
  let a1 := handle (timeoutFires n now) a in
  flights a1 = flights a ++ [Flight.mk reason now final rendering]
  ∧ timeouts (session a1) = delete n (timeouts (session a))
  ∧ updateCount (session a1) = updateCount (session a) + 1
  ∧ ∀ es,
      let a2 := run es a1 in
      flights a2 !! i = Some (Flight.mk reason now final rendering) →
      let r :=
        if final then finalReply (updateCount (session a2) + 1)
        else updateReply (ceil_minutes (endTime (session a) - now))
               (updateCount (session a2) + 1) reason in
      let a3 := handle (generateEmbedSettles i true) a2 in
      flights a3 !! i = Some (Flight.mk reason now final (posting r))
      ∧ ∀ es',
          let a4 := run es' a3 in
          flights a4 !! i = Some (Flight.mk reason now final (posting r)) →
          let a5 := handle (editReplySettles i true) a4 in
          replies (session a5) = replies (session a4) ++ [r]
          ∧ (final = false →
             lastUpdateTime (session a5) = now
             ∧ pendingUpdate (session a5) = false)
          ∧ (final = true → torn_down (session a5)).
Proof.
  intros Hn Hcb Hdue. cbv zeta.
  assert (Ha1 : handle (timeoutFires n now) a
                = performUpdate reason now
                    (set_session
                       (set_timeouts (delete n (timeouts (session a)))
                          (session a)) a)).
  { cbn [handle]. rewrite Hn, Hcb.
    destruct (Z.leb_spec (due timer) now); [reflexivity | lia]. }
  rewrite Ha1. split; [reflexivity |]. split; [reflexivity |].
  split; [reflexivity |].
  intros es Hi.
  destruct (run_fields es
              (performUpdate reason now
                 (set_session
                    (set_timeouts (delete n (timeouts (session a)))
                       (session a)) a))) as [He _].
  change (endTime (session (performUpdate reason now
            (set_session (set_timeouts (delete n (timeouts (session a)))
               (session a)) a))))
    with (endTime (session a)) in He.
  destruct (afterGenerateEmbed_rendering _ _ _ Hi eq_refl)
    as (_ & _ & Hf3).
  cbv zeta in Hf3. cbn [Flight.final Flight.now Flight.reason] in Hf3.
  rewrite He in Hf3.
  split; [exact Hf3 |].
  intros es' Hi'. cbn [handle] in Hi' |- *.
  destruct (afterEditReply_posting _ _ _ _ Hi' eq_refl) as [Hs5 _].
  rewrite Hs5. cbn [Flight.final Flight.now].
  destruct (endTime (session a) <=? now).
  - split; [rewrite release_replies; reflexivity |].
    split; [discriminate |]. intros _. apply release_torn_down.
  - split; [reflexivity |]. split; [| discriminate].
    intros _. split; reflexivity.
Qed.

Lemma deferred_refresh_always_posts_witness :
  let a := run_uninterrupted last_minute_run fresh in
  let a1 := handle (timeoutFires 0 905000) a in
  let a3 := handle (generateEmbedSettles 30 true) a1 in
  torn_down (session a)
  ∧ flights a1 !! 30%nat
    = Some (Flight.mk "lab-completed" 905000 true rendering)
  ∧ flights a3 !! 30%nat
    = Some (Flight.mk "lab-completed" 905000 true (posting (finalReply 32)))
  ∧ replies (session (handle (editReplySettles 30 true) a3))
    = replies (session a3) ++ [finalReply 32].
Proof.
  intros a a1 a3.
  assert (Hlen : length (flights a) = 30%nat) by (vm_compute; reflexivity).
  assert (Hfin : (endTime (session a) <=? 905000) = true)
    by (vm_compute; reflexivity).
  assert (Hcount : updateCount (session a1) + 1 = 32)
    by (vm_compute; reflexivity).
  assert (H1 : flights a1 !! 30%nat
               = Some (Flight.mk "lab-completed" 905000 true rendering))
    by (vm_compute; reflexivity).
  assert (H3 : flights a3 !! 30%nat
               = Some (Flight.mk "lab-completed" 905000 true
                         (posting (finalReply 32))))
    by (vm_compute; reflexivity).
  assert (Htimer : timeouts (session a) !! 0%nat
                   = Some (deferred "lab-completed" 896000 895000))
    by (vm_compute; reflexivity).
  assert (Hdue : due (deferred "lab-completed" 896000 895000) ≤ 905000)
    by (vm_compute; discriminate).
  pose proof (deferred_refresh_always_posts a 0
                (deferred "lab-completed" 896000 895000) "lab-completed"
                905000 Htimer eq_refl Hdue) as H.
  cbv zeta in H. rewrite Hlen, Hfin in H.
  destruct H as (_ & _ & _ & H). specialize (H []).
  assert (E1 : run [] (handle (timeoutFires 0 905000) a) = a1)
    by (vm_compute; reflexivity).
  rewrite E1, Hcount in H.
  destruct (H H1) as [_ H5]. specialize (H5 []).
  assert (E3 : run [] (handle (generateEmbedSettles 30 true) a1) = a3)
    by (vm_compute; reflexivity).
  rewrite E3 in H5.
  split; [split; vm_compute; reflexivity |].
  split; [exact H1 |]. split; [exact H3 |].
  exact (proj1 (H5 H3)).
Defined.

End Refreshes.

(** * Alphabetical event codes *)

Import Bevy.

Example number2alphabet_samples :
  number2alphabet 0 = "a" ∧ number2alphabet 25 = "z"
  ∧ number2alphabet 26 = "aa" ∧ number2alphabet 701 = "zz"
  ∧ number2alphabet 702 = "aaa" ∧ alphabet2number "aa" = 26.
Proof. repeat split; vm_compute; reflexivity. Qed.

Lemma alphabet2number_loop_acc (a : string) :
  ∀ acc,
    alphabet2number_loop a acc
    = acc * 26 ^ Z.of_nat (String.length a) + alphabet2number_loop a 0.
Proof.
  induction a as [|c a IH]; intros acc.
  - cbn. lia.
  - cbn [alphabet2number_loop String.length].
    rewrite IH, (IH (0 * 26 + _)), Nat2Z.inj_succ, Z.pow_succ_r by lia.
    ring.
Qed.

Lemma letter_code (r : Z) :
  0 ≤ r < 26 →
  Z.of_nat (nat_of_ascii (ascii_of_nat (Z.to_nat (97 + r)))) = 97 + r.
Proof.
  intros Hr. rewrite nat_ascii_embedding by lia. lia.
Qed.

Lemma number2alphabet_loop_value (rounds : nat) :
  ∀ n result,
    0 ≤ n ≤ Z.of_nat rounds →
    alphabet2number_loop (number2alphabet_loop rounds n result) 0
    = n * 26 ^ Z.of_nat (String.length result)
      + alphabet2number_loop result 0
    ∧ (lower_case result = true →
       lower_case (number2alphabet_loop rounds n result) = true).
Proof.
  induction rounds as [|rounds IH]; intros n result Hn.
  - cbn. split; [lia | auto].
  - cbn [number2alphabet_loop]. destruct (Z.ltb_spec 0 n) as [Hpos|Hle].
    + pose proof (Z.div_mod (n - 1) 26 ltac:(lia)) as Hdm.
      pose proof (Z.mod_pos_bound (n - 1) 26 ltac:(lia)) as Hm.
      assert (Hq : 0 ≤ (n - 1) / 26 ≤ Z.of_nat rounds).
      { split; [apply Z.div_pos; lia |].
        transitivity (n - 1); [| lia].
        apply Z.div_le_upper_bound; lia. }
      destruct (IH ((n - 1) / 26)
                  (String (ascii_of_nat (Z.to_nat (97 + (n - 1) mod 26)))
                     result) Hq) as [IHv IHl].
      split.
      * rewrite IHv. cbn [alphabet2number_loop String.length].
        rewrite letter_code by exact Hm.
        rewrite alphabet2number_loop_acc, Nat2Z.inj_succ, Z.pow_succ_r by lia.
        set (p := 26 ^ Z.of_nat (String.length result)) in *.
        set (q := (n - 1) / 26) in *. set (m := (n - 1) mod 26) in *.
        replace n with (26 * q + m + 1) by lia. ring.
      * intros Hlow. apply IHl. cbn [lower_case].
        rewrite letter_code by exact Hm. rewrite Hlow.
        destruct (Z.leb_spec 97 (97 + (n - 1) mod 26)); [| lia].
        destruct (Z.leb_spec (97 + (n - 1) mod 26) 122); [| lia].
        reflexivity.
    + split; [| auto]. assert (n = 0) as -> by lia. lia.
Qed.

Lemma number2alphabet_loop_round (rounds : nat) (n : Z) (result : string) :
  number2alphabet_loop (S rounds) n result
  = if 0 <? n
    then number2alphabet_loop rounds ((n - 1) / 26)
           (String (ascii_of_nat (Z.to_nat (97 + (n - 1) mod 26))) result)
    else result.
Proof. reflexivity. Qed.

Lemma number2alphabet_enough (rounds : nat) :
  ∀ n result,
    n ≤ Z.of_nat rounds →
    number2alphabet_loop (S rounds) n result
    = number2alphabet_loop rounds n result.
Proof.
  induction rounds as [|rounds IH]; intros n result Hn.
  - cbn. destruct (Z.ltb_spec 0 n); [lia | reflexivity].
  - rewrite (number2alphabet_loop_round (S rounds)).
    rewrite (number2alphabet_loop_round rounds n).
    destruct (Z.ltb_spec 0 n); [| reflexivity].
    rewrite IH; [reflexivity |].
    transitivity (n - 1); [| lia].
    apply Z.div_le_upper_bound; lia.
Qed.



Lemma alphabet2number_loop_nonneg (s : string) :
  ∀ acc, 0 ≤ acc → lower_case s = true → 0 ≤ alphabet2number_loop s acc.
Proof.
  induction s as [|a s IH]; intros acc Hacc; cbn [alphabet2number_loop
    lower_case]; [auto |].
  intros [[H1 H2]%andb_true_iff Hs]%andb_true_iff.
  apply Z.leb_le in H1, H2. apply IH; [lia | exact Hs].
Qed.

Lemma alphabet2number_loop_app (t u : string) :
  ∀ acc,
    alphabet2number_loop (t +:+ u) acc
    = alphabet2number_loop u (alphabet2number_loop t acc).
Proof.
  induction t as [|a t IH]; intros acc; [reflexivity |].
  change (String a t +:+ u) with (String a (t +:+ u)).
  cbn [alphabet2number_loop]. apply IH.
Qed.

Lemma lower_case_app (t u : string) :
  lower_case (t +:+ u) = lower_case t && lower_case u.
Proof.
  induction t as [|a t IH]; [reflexivity |].
  change (String a t +:+ u) with (String a (t +:+ u)).
  cbn [lower_case]. rewrite IH, andb_assoc. reflexivity.
Qed.

(** The value so far never exceeds the value at the end: no value met
    while a code is read is larger than the result plus one. *)
Lemma alphabet2number_loop_prefix (t u : string) :
  lower_case (t +:+ u) = true →
  0 ≤ alphabet2number_loop t 0 ≤ alphabet2number_loop (t +:+ u) 0.
Proof.
  rewrite lower_case_app. intros [Ht Hu]%andb_true_iff.
  pose proof (alphabet2number_loop_nonneg t 0 ltac:(lia) Ht) as Hpos.
  pose proof (alphabet2number_loop_nonneg u 0 ltac:(lia) Hu) as Hpos'.
  rewrite alphabet2number_loop_app, (alphabet2number_loop_acc u).
  pose proof (Z.pow_pos_nonneg 26 (Z.of_nat (String.length u))
                ltac:(lia) ltac:(lia)) as Hpow.
  set (p := 26 ^ Z.of_nat (String.length u)) in *.
  set (v := alphabet2number_loop t 0) in *.
  assert (v * 1 ≤ v * p) by (apply Z.mul_le_mono_nonneg_l; lia).
  lia.
Qed.

(** X22: [alphabet2number] undoes [number2alphabet] on the integers from
    [0] to [MAX_SAFE_INTEGER] (from [2^53] on the increment [n++] rounds):
    the code of such an [n] is a non-empty string of lower-case letters
    that is read back as [n], no value met while it is read exceeds
    [n + 1], so that nothing is rounded.  The loop of [number2alphabet] has
    ended within [n + 1] rounds: more rounds give the same code. *)
Theorem alphabet2number_number2alphabet (n : Z) :
  0 ≤ n ≤ MAX_SAFE_INTEGER →
  alphabet2number (number2alphabet n) = n
  ∧ lower_case (number2alphabet n) = true
  ∧ number2alphabet n ≠ EmptyString
  ∧ (∀ more : nat,
       number2alphabet_loop (more + Z.to_nat (n + 1)) (n + 1) EmptyString
       = number2alphabet n)
  ∧ (∀ t u, number2alphabet n = t +:+ u →
       0 ≤ alphabet2number_loop t 0 ≤ MAX_SAFE_INTEGER + 1).
Proof.
  intros Hn. unfold alphabet2number, number2alphabet.
  destruct (number2alphabet_loop_value (Z.to_nat (n + 1)) (n + 1) EmptyString)
    as [Hv Hl]; [lia |].
  specialize (Hl eq_refl).
  split; [rewrite Hv; cbn; lia |]. split; [exact Hl |].
  split; [| split].
  - intros Hempty. rewrite Hempty in Hv. cbn in Hv. lia.
  - induction more as [|more IH]; [reflexivity |].
    cbn [Nat.add]. rewrite number2alphabet_enough; [exact IH | lia].
  - intros t u Htu. rewrite Htu in Hl, Hv.
    pose proof (alphabet2number_loop_prefix t u Hl) as Hpre.
    cbn in Hv. lia.
Qed.

Lemma alphabet2number_number2alphabet_witness :
  0 ≤ 1000 ≤ MAX_SAFE_INTEGER
  ∧ alphabet2number (number2alphabet 1000) = 1000
  ∧ number2alphabet_loop (5 + Z.to_nat (1000 + 1)) (1000 + 1) EmptyString
    = number2alphabet 1000.
Proof.
  assert (H : 0 ≤ 1000 ≤ MAX_SAFE_INTEGER) by (vm_compute; split; discriminate).
  destruct (alphabet2number_number2alphabet 1000 H) as (H1 & _ & _ & H4 & _).
  split; [exact H |]. split; [exact H1 | exact (H4 5%nat)].
Defined.







